(** * SkillBridge AI chat page: voice/text channel

    A shallow embedding of the chat page component (the [ChatPage] function of
    the client): its audio codec utilities, the voice activity gate of the
    recorder handler, the flush of buffered audio, the start/stop of the voice
    conversation, the connection to the agent server and the handler of the
    server-sent events, followed by the properties of these functions.

    Conventions of the embedding.
    - A JavaScript string is a [string]: a text is held as the bytes of its
      UTF-8 encoding; the characters of a binary string (code units 0..255)
      are the 256 values of [ascii].
    - A [Uint8Array] or the bytes of an [ArrayBuffer] are a [list byte].
    - A JavaScript number is an IEEE 754 binary64 value, a [spec_float] of the
      Standard Library with precision 53 and maximal exponent 1024.
    - [useState] variables live in the record [State]; a setter writes the
      field at once, while a read of a state variable inside a function sees
      the value of the render that created the function, the record [Render].
      The updates of [messages] that the handler of the stream asks for are
      the exception: one of them reads a reference when React runs it, so
      they are kept until the render, [commit].
    - [useRef] cells are fields of [State] as well and are read and written in
      place.
    - What the browser decides (the outcome of a [fetch], the clock, the random
      identifier, whether a device opens) is an argument of the function that
      asks for it; what the function does to the outside is the list of
      [effects] of its outcome.
    - An [async] function runs to its end without another handler of the
      page running in between; [sendMessage] is also given in two parts, up to
      its request and from the response on, and [stopVoiceConversation] and
      [disconnectFromServer] also with the frames of the recorder that arrive
      while they wait. *)

From Stdlib Require Import ZArith NArith List String Ascii Strings.Byte Bool Lia.
From Stdlib Require Import DecimalString.
From Stdlib Require Import Floats.SpecFloat.
Import ListNotations.

Local Open Scope string_scope.
Local Open Scope list_scope.

(** ** Base64 of the platform: [window.btoa] and [window.atob]

    Both are built into the browser.  [btoa] is the base64 encoding of RFC 4648
    with padding; [atob] is the forgiving-base64 decoding of the WHATWG Infra
    standard. *)

Module Base64.

Definition alphabet : list ascii :=
  list_ascii_of_string
    "ABCDEFGHIJKLMNOPQRSTUVWXYZabcdefghijklmnopqrstuvwxyz0123456789+/".

Definition pad_char : ascii := "="%char.

Definition char_of_sextet (n : N) : ascii :=
  nth (N.to_nat n) alphabet "A"%char.

Fixpoint index_of (c : ascii) (l : list ascii) (i : N) : option N :=
  match l with
  | [] => None
  | x :: r => if Ascii.eqb c x then Some i else index_of c r (N.succ i)
  end.

Definition sextet_of_char (c : ascii) : option N := index_of c alphabet 0%N.

(** The code of a character of a binary string. *)
Definition code (c : ascii) : N := N_of_ascii c.

Fixpoint encode_chars (l : list ascii) : list ascii :=
  match l with
  | [] => []
  | [a] =>
      [char_of_sextet (code a / 4);
       char_of_sextet (code a mod 4 * 16);
       pad_char; pad_char]
  | [a; b] =>
      [char_of_sextet (code a / 4);
       char_of_sextet (code a mod 4 * 16 + code b / 16);
       char_of_sextet (code b mod 16 * 4);
       pad_char]
  | a :: b :: c :: rest =>
      char_of_sextet (code a / 4)
      :: char_of_sextet (code a mod 4 * 16 + code b / 16)
      :: char_of_sextet (code b mod 16 * 4 + code c / 64)
      :: char_of_sextet (code c mod 64)
      :: encode_chars rest
  end%N.

(** [window.btoa] on a binary string.  (On a string with a code unit above 255
    the browser throws; such a string is not a value of [string] here.) *)
Definition btoa (binary : string) : string :=
  string_of_list_ascii (encode_chars (list_ascii_of_string binary)).

Definition is_ascii_whitespace (c : ascii) : bool :=
  let n := code c in
  ((n =? 9) || (n =? 10) || (n =? 12) || (n =? 13) || (n =? 32))%N.

(** Step 2 of the forgiving decoding: one or two trailing [=] are removed. *)
Definition strip_padding (l : list ascii) : list ascii :=
  match rev l with
  | c1 :: c2 :: r =>
      if Ascii.eqb c1 pad_char
      then if Ascii.eqb c2 pad_char then rev r else rev (c2 :: r)
      else l
  | _ => l
  end.

Fixpoint sextets_of_chars (l : list ascii) : option (list N) :=
  match l with
  | [] => Some []
  | c :: r =>
      match sextet_of_char c, sextets_of_chars r with
      | Some n, Some ns => Some (n :: ns)
      | _, _ => None
      end
  end.

(** The bit buffer of the decoding: 24 bits give three bytes, a rest of 12
    bits gives one byte and a rest of 18 bits two, the last bits dropped. *)
Fixpoint decode_sextets (l : list N) : list ascii :=
  match l with
  | s0 :: s1 :: s2 :: s3 :: rest =>
      let n := (((s0 * 64 + s1) * 64 + s2) * 64 + s3)%N in
      ascii_of_N (n / 65536)
      :: ascii_of_N (n / 256 mod 256)
      :: ascii_of_N (n mod 256)
      :: decode_sextets rest
  | [s0; s1; s2] =>
      let n := (((s0 * 64 + s1) * 64 + s2) / 4)%N in
      [ascii_of_N (n / 256); ascii_of_N (n mod 256)]
  | [s0; s1] =>
      let n := ((s0 * 64 + s1) / 16)%N in
      [ascii_of_N n]
  | _ => []
  end.

Definition decode_chars (l : list ascii) : option (list ascii) :=
  let data := filter (fun c => negb (is_ascii_whitespace c)) l in
  let data :=
    if (N.of_nat (List.length data) mod 4 =? 0)%N
    then strip_padding data else data in
  if (N.of_nat (List.length data) mod 4 =? 1)%N then None
  else
    match sextets_of_chars data with
    | Some ns => Some (decode_sextets ns)
    | None => None
    end.

(** [window.atob]: [None] is the [InvalidCharacterError] it throws. *)
Definition atob (base64 : string) : option string :=
  match decode_chars (list_ascii_of_string base64) with
  | Some l => Some (string_of_list_ascii l)
  | None => None
  end.

End Base64.

(** ** Audio codec utilities of the page *)

Definition ArrayBuffer := list byte.

(** [base64ToArray]: [bytes[i] = binaryString.charCodeAt(i)] for every index of
    the decoded binary string. *)
Definition base64ToArray (base64 : string) : option ArrayBuffer :=
  match Base64.atob base64 with
  | Some binaryString =>
      Some (map byte_of_ascii (list_ascii_of_string binaryString))
  | None => None
  end.

(** [arrayBufferToBase64]: the loop appends [String.fromCharCode(bytes[i])] to
    [binary], then the binary string is encoded. *)
Definition arrayBufferToBase64 (buffer : ArrayBuffer) : string :=
  let binary :=
    fold_left
      (fun binary b => (binary ++ String (ascii_of_byte b) EmptyString)%string)
      buffer EmptyString in
  Base64.btoa binary.

(** ** JavaScript numbers

    The operations of the language that the page applies to numbers, on
    [spec_float] at binary64.  Order is the order of the values denoted, so it
    does not depend on how a value is written as mantissa and exponent. *)

Module Number.

Local Open Scope Z_scope.

Definition prec : Z := 53.
Definition emax : Z := 1024.

Definition number := spec_float.

(** The number denoted by an integer literal or by an integer-valued
    expression such as [samples.length] or an element of an [Int16Array]. *)
Definition of_Z (z : Z) : number := binary_normalize prec emax z 0 false.

Definition mul : number -> number -> number := SFmul prec emax.
Definition add : number -> number -> number := SFadd prec emax.
Definition div : number -> number -> number := SFdiv prec emax.
Definition sqrt : number -> number := SFsqrt prec emax.

Definition is_nan (x : number) : bool :=
  match x with S754_nan => true | _ => false end.

(** Signed mantissa and exponent of a zero or finite number. *)
Definition mantissa (x : number) : Z :=
  match x with
  | S754_finite s m _ => if s then Z.neg m else Z.pos m
  | _ => 0
  end.

Definition exponent (x : number) : Z :=
  match x with
  | S754_finite _ _ e => e
  | _ => 0
  end.

(** [mantissa x * 2 ^ (exponent x - e)], for [e] at most [exponent x]. *)
Definition scaled (x : number) (e : Z) : Z :=
  mantissa x * 2 ^ (exponent x - e).

Definition compare (x y : number) : option comparison :=
  match x, y with
  | S754_nan, _ | _, S754_nan => None
  | S754_infinity s1, S754_infinity s2 =>
      Some (match s1, s2 with
            | true, false => Lt
            | false, true => Gt
            | _, _ => Eq
            end)
  | S754_infinity s, _ => Some (if s then Lt else Gt)
  | _, S754_infinity s => Some (if s then Gt else Lt)
  | _, _ =>
      let e := Z.min (exponent x) (exponent y) in
      Some (Z.compare (scaled x e) (scaled y e))
  end.

(** [x < y] and [x > y] of the language: false when an operand is NaN. *)
Definition lt (x y : number) : bool :=
  match compare x y with Some Lt => true | _ => false end.

Definition gt (x y : number) : bool := lt y x.

Definition is_neg_zero (x : number) : bool :=
  match x with S754_zero true => true | _ => false end.

Definition is_pos_zero (x : number) : bool :=
  match x with S754_zero false => true | _ => false end.

(** [Math.min(a, b)]: NaN if an argument is NaN, [-0] below [+0]. *)
Definition Math_min (a b : number) : number :=
  if is_nan a || is_nan b then S754_nan
  else
    let lowest := if lt a (S754_infinity false) then a else S754_infinity false in
    if is_neg_zero b && is_pos_zero lowest then b
    else if lt b lowest then b else lowest.

(** [Math.max(a, b)]: NaN if an argument is NaN, [+0] above [-0]. *)
Definition Math_max (a b : number) : number :=
  if is_nan a || is_nan b then S754_nan
  else
    let highest := if gt a (S754_infinity true) then a else S754_infinity true in
    if is_pos_zero b && is_neg_zero highest then b
    else if gt b highest then b else highest.

(** The integral part of a number, towards zero; 0 for NaN, zeros and
    infinities (ToIntegerOrInfinity, with 0 in place of the infinities). *)
Definition truncate (x : number) : Z :=
  match x with
  | S754_finite s m e =>
      let a := Z.shiftl (Z.pos m) e in
      if s then - a else a
  | _ => 0
  end.

(** ToInt16: the integral part modulo [2^16], read as a signed 16-bit value.
    This is what a store into an [Int16Array] keeps. *)
Definition ToInt16 (x : number) : Z :=
  let int16bit := truncate x mod 65536 in
  if int16bit >=? 32768 then int16bit - 65536 else int16bit.

End Number.

Local Open Scope Z_scope.

(** An [Int16Array], and the [ArrayBuffer] behind it when it is only read
    through 16-bit views: the list of its elements. *)
Definition Int16Array := list Z.

(** [convertFloat32ToPCM]: [inputData] is a [Float32Array], each element read
    as the number it denotes; the result is the buffer of [pcm16]. *)
Definition convertFloat32ToPCM (inputData : list Number.number) : Int16Array :=
  map (fun sample =>
         Number.ToInt16
           (Number.Math_max (Number.of_Z (-32768))
              (Number.Math_min (Number.of_Z 32767)
                 (Number.mul sample (Number.of_Z 32767)))))
      inputData.

(** The bytes of a 16-bit element, as a [Uint8Array] over the same buffer sees
    them (little-endian, as on every platform the page runs on). *)
Definition bytes_of_int16 (v : Z) : list byte :=
  let u := (v mod 65536)%Z in
  match Byte.of_N (Z.to_N (u mod 256)%Z), Byte.of_N (Z.to_N (u / 256)%Z) with
  | Some lo, Some hi => [lo; hi]
  | _, _ => []
  end.

Definition Uint8Array_of (pcmData : Int16Array) : list byte :=
  flat_map bytes_of_int16 pcmData.

(** ** Values decoded from JSON

    [JSON.parse] yields a value of the language; an object is the list of its
    properties, each key once. *)

#[warnings="-register-all"]
Inductive json : Type :=
| JNull
| JBool (b : bool)
| JNum (x : Number.number)
| JStr (s : string)
| JArr (items : list json)
| JObj (fields : list (string * json)).

Fixpoint lookup (k : string) (fields : list (string * json)) : option json :=
  match fields with
  | [] => None
  | (k', v) :: rest => if String.eqb k k' then Some v else lookup k rest
  end.

(** The read [v.k] of a property that no prototype defines: [None] in the
    inner option is [undefined], [None] outside is the [TypeError] of a read
    on [null]. *)
Definition member (v : json) (k : string) : option (option json) :=
  match v with
  | JNull => None
  | JObj fields => Some (lookup k fields)
  | _ => Some None
  end.

(** [v === true] and [v === "literal"]. *)
Definition strictly_true (v : option json) : bool :=
  match v with Some (JBool true) => true | _ => false end.

Definition strictly_string (v : option json) (literal : string) : bool :=
  match v with Some (JStr s) => String.eqb s literal | _ => false end.

(** The truth value of [v] in a condition. *)
Definition truthy (v : option json) : bool :=
  match v with
  | None | Some JNull => false
  | Some (JBool b) => b
  | Some (JNum x) =>
      match x with S754_zero _ | S754_nan => false | _ => true end
  | Some (JStr s) => negb (String.eqb s EmptyString)
  | Some (JArr _) | Some (JObj _) => true
  end.

Definition ToNumber_primitive (v : json) : Number.number :=
  match v with
  | JBool true => Number.of_Z 1
  | JNum x => x
  | _ => Number.of_Z 0
  end.

(** ** The data of the page *)

Inductive Sender : Type := user | ai.

Inductive MessageType : Type := emergency | normal.

Record Message : Type := mkMessage {
  id : string;
  content : json;
  sender : Sender;
  timestamp : Z;
  type : option MessageType
}.

(** Object identity of what the browser creates: streams, audio contexts,
    worklet nodes, microphone streams, timers. *)
Definition handle := nat.

Inductive Mode : Type := TextMode | AudioMode.

(** An [EventSource]: the [is_audio] flag of its URL and whether [close] was
    called on it. *)
Record EventSource : Type := mkEventSource {
  es_handle : handle;
  es_is_audio : bool;
  es_closed : bool
}.

Record AudioContext : Type := mkAudioContext {
  ctx_handle : handle;
  sampleRate : Z
}.

(** Modelled from the spec: the player worklet processor
    (pcm-player-processor.js, loaded by [startAudioPlayerWorklet]) is not
    among the sources.  Its state is the playback pipeline of the
    specification: a FIFO queue of buffers not yet played and the buffer being
    played; a buffer posted to the port is enqueued in arrival order, the
    command [endOfAudio] is [interrupt], which discards the queue and halts
    the buffer being played; disconnecting the output keeps the queue. *)
Record PlayerNode : Type := mkPlayerNode {
  node_handle : handle;
  queue : list ArrayBuffer;
  playing : option ArrayBuffer;
  output_connected : bool
}.

Definition enqueue (bytes : ArrayBuffer) (p : PlayerNode) : PlayerNode :=
  mkPlayerNode (node_handle p) (queue p ++ [bytes]) (playing p)
    (output_connected p).

Definition interrupt (p : PlayerNode) : PlayerNode :=
  mkPlayerNode (node_handle p) [] None (output_connected p).

Definition set_output (connected : bool) (p : PlayerNode) : PlayerNode :=
  mkPlayerNode (node_handle p) (queue p) (playing p) connected.

Inductive PortMessage : Type :=
| EndOfAudio
| Audio (audioBuffer : ArrayBuffer).

(** The body of a request to [/send/{userId}]. *)
Record OutboundFrame : Type := mkFrame {
  mime_type : string;
  data : string
}.

(** The state of the component: the [useState] variables, the [useRef] cells
    and the next unused handle. *)
Record State : Type := mkState {
  messages : list Message;
  inputValue : string;
  isConnected : bool;
  isVoiceEnabled : bool;
  isRecording : bool;
  isMuted : bool;
  isTyping : bool;
  eventSourceRef : option EventSource;
  currentMessageIdRef : option string;
  audioPlayerNodeRef : option PlayerNode;
  audioPlayerContextRef : option AudioContext;
  audioRecorderNodeRef : option handle;
  audioRecorderContextRef : option AudioContext;
  micStreamRef : option handle;
  audioBufferRef : list (list byte);
  bufferTimerRef : option handle;
  next_handle : handle
}.

Definition set_messages (v : list Message) (s : State) : State :=
  mkState v (inputValue s) (isConnected s) (isVoiceEnabled s) (isRecording s)
    (isMuted s) (isTyping s) (eventSourceRef s) (currentMessageIdRef s)
    (audioPlayerNodeRef s) (audioPlayerContextRef s) (audioRecorderNodeRef s)
    (audioRecorderContextRef s) (micStreamRef s) (audioBufferRef s)
    (bufferTimerRef s) (next_handle s).

Definition set_inputValue (v : string) (s : State) : State :=
  mkState (messages s) v (isConnected s) (isVoiceEnabled s) (isRecording s)
    (isMuted s) (isTyping s) (eventSourceRef s) (currentMessageIdRef s)
    (audioPlayerNodeRef s) (audioPlayerContextRef s) (audioRecorderNodeRef s)
    (audioRecorderContextRef s) (micStreamRef s) (audioBufferRef s)
    (bufferTimerRef s) (next_handle s).

Definition set_isConnected (v : bool) (s : State) : State :=
  mkState (messages s) (inputValue s) v (isVoiceEnabled s) (isRecording s)
    (isMuted s) (isTyping s) (eventSourceRef s) (currentMessageIdRef s)
    (audioPlayerNodeRef s) (audioPlayerContextRef s) (audioRecorderNodeRef s)
    (audioRecorderContextRef s) (micStreamRef s) (audioBufferRef s)
    (bufferTimerRef s) (next_handle s).

Definition set_isVoiceEnabled (v : bool) (s : State) : State :=
  mkState (messages s) (inputValue s) (isConnected s) v (isRecording s)
    (isMuted s) (isTyping s) (eventSourceRef s) (currentMessageIdRef s)
    (audioPlayerNodeRef s) (audioPlayerContextRef s) (audioRecorderNodeRef s)
    (audioRecorderContextRef s) (micStreamRef s) (audioBufferRef s)
    (bufferTimerRef s) (next_handle s).

Definition set_isRecording (v : bool) (s : State) : State :=
  mkState (messages s) (inputValue s) (isConnected s) (isVoiceEnabled s) v
    (isMuted s) (isTyping s) (eventSourceRef s) (currentMessageIdRef s)
    (audioPlayerNodeRef s) (audioPlayerContextRef s) (audioRecorderNodeRef s)
    (audioRecorderContextRef s) (micStreamRef s) (audioBufferRef s)
    (bufferTimerRef s) (next_handle s).

Definition set_isMuted (v : bool) (s : State) : State :=
  mkState (messages s) (inputValue s) (isConnected s) (isVoiceEnabled s)
    (isRecording s) v (isTyping s) (eventSourceRef s) (currentMessageIdRef s)
    (audioPlayerNodeRef s) (audioPlayerContextRef s) (audioRecorderNodeRef s)
    (audioRecorderContextRef s) (micStreamRef s) (audioBufferRef s)
    (bufferTimerRef s) (next_handle s).

Definition set_isTyping (v : bool) (s : State) : State :=
  mkState (messages s) (inputValue s) (isConnected s) (isVoiceEnabled s)
    (isRecording s) (isMuted s) v (eventSourceRef s) (currentMessageIdRef s)
    (audioPlayerNodeRef s) (audioPlayerContextRef s) (audioRecorderNodeRef s)
    (audioRecorderContextRef s) (micStreamRef s) (audioBufferRef s)
    (bufferTimerRef s) (next_handle s).

Definition set_eventSourceRef (v : option EventSource) (s : State) : State :=
  mkState (messages s) (inputValue s) (isConnected s) (isVoiceEnabled s)
    (isRecording s) (isMuted s) (isTyping s) v (currentMessageIdRef s)
    (audioPlayerNodeRef s) (audioPlayerContextRef s) (audioRecorderNodeRef s)
    (audioRecorderContextRef s) (micStreamRef s) (audioBufferRef s)
    (bufferTimerRef s) (next_handle s).

Definition set_currentMessageIdRef (v : option string) (s : State) : State :=
  mkState (messages s) (inputValue s) (isConnected s) (isVoiceEnabled s)
    (isRecording s) (isMuted s) (isTyping s) (eventSourceRef s) v
    (audioPlayerNodeRef s) (audioPlayerContextRef s) (audioRecorderNodeRef s)
    (audioRecorderContextRef s) (micStreamRef s) (audioBufferRef s)
    (bufferTimerRef s) (next_handle s).

Definition set_audioPlayerNodeRef (v : option PlayerNode) (s : State) : State :=
  mkState (messages s) (inputValue s) (isConnected s) (isVoiceEnabled s)
    (isRecording s) (isMuted s) (isTyping s) (eventSourceRef s)
    (currentMessageIdRef s) v (audioPlayerContextRef s) (audioRecorderNodeRef
    s) (audioRecorderContextRef s) (micStreamRef s) (audioBufferRef s)
    (bufferTimerRef s) (next_handle s).

Definition set_audioPlayerContextRef (v : option AudioContext) (s : State) : State :=
  mkState (messages s) (inputValue s) (isConnected s) (isVoiceEnabled s)
    (isRecording s) (isMuted s) (isTyping s) (eventSourceRef s)
    (currentMessageIdRef s) (audioPlayerNodeRef s) v (audioRecorderNodeRef s)
    (audioRecorderContextRef s) (micStreamRef s) (audioBufferRef s)
    (bufferTimerRef s) (next_handle s).

Definition set_audioRecorderNodeRef (v : option handle) (s : State) : State :=
  mkState (messages s) (inputValue s) (isConnected s) (isVoiceEnabled s)
    (isRecording s) (isMuted s) (isTyping s) (eventSourceRef s)
    (currentMessageIdRef s) (audioPlayerNodeRef s) (audioPlayerContextRef s) v
    (audioRecorderContextRef s) (micStreamRef s) (audioBufferRef s)
    (bufferTimerRef s) (next_handle s).

Definition set_audioRecorderContextRef (v : option AudioContext) (s : State) : State :=
  mkState (messages s) (inputValue s) (isConnected s) (isVoiceEnabled s)
    (isRecording s) (isMuted s) (isTyping s) (eventSourceRef s)
    (currentMessageIdRef s) (audioPlayerNodeRef s) (audioPlayerContextRef s)
    (audioRecorderNodeRef s) v (micStreamRef s) (audioBufferRef s)
    (bufferTimerRef s) (next_handle s).

Definition set_micStreamRef (v : option handle) (s : State) : State :=
  mkState (messages s) (inputValue s) (isConnected s) (isVoiceEnabled s)
    (isRecording s) (isMuted s) (isTyping s) (eventSourceRef s)
    (currentMessageIdRef s) (audioPlayerNodeRef s) (audioPlayerContextRef s)
    (audioRecorderNodeRef s) (audioRecorderContextRef s) v (audioBufferRef s)
    (bufferTimerRef s) (next_handle s).

Definition set_audioBufferRef (v : list (list byte)) (s : State) : State :=
  mkState (messages s) (inputValue s) (isConnected s) (isVoiceEnabled s)
    (isRecording s) (isMuted s) (isTyping s) (eventSourceRef s)
    (currentMessageIdRef s) (audioPlayerNodeRef s) (audioPlayerContextRef s)
    (audioRecorderNodeRef s) (audioRecorderContextRef s) (micStreamRef s) v
    (bufferTimerRef s) (next_handle s).

Definition set_bufferTimerRef (v : option handle) (s : State) : State :=
  mkState (messages s) (inputValue s) (isConnected s) (isVoiceEnabled s)
    (isRecording s) (isMuted s) (isTyping s) (eventSourceRef s)
    (currentMessageIdRef s) (audioPlayerNodeRef s) (audioPlayerContextRef s)
    (audioRecorderNodeRef s) (audioRecorderContextRef s) (micStreamRef s)
    (audioBufferRef s) v (next_handle s).

Definition set_next_handle (v : handle) (s : State) : State :=
  mkState (messages s) (inputValue s) (isConnected s) (isVoiceEnabled s)
    (isRecording s) (isMuted s) (isTyping s) (eventSourceRef s)
    (currentMessageIdRef s) (audioPlayerNodeRef s) (audioPlayerContextRef s)
    (audioRecorderNodeRef s) (audioRecorderContextRef s) (micStreamRef s)
    (audioBufferRef s) (bufferTimerRef s) v.

(** The values of the state variables that a function of the component sees:
    those of the render that created it. *)
Record Render : Type := mkRender {
  r_inputValue : string;
  r_isConnected : bool;
  r_isVoiceEnabled : bool;
  r_isMuted : bool;
  userId : Z
}.

Definition render_of (uid : Z) (s : State) : Render :=
  mkRender (inputValue s) (isConnected s) (isVoiceEnabled s) (isMuted s) uid.

(** The mode of the session: that of the stream held by [eventSourceRef], as
    long as it was not closed. *)
Definition session_mode (s : State) : option Mode :=
  match eventSourceRef s with
  | Some es =>
      if es_closed es then None
      else Some (if es_is_audio es then AudioMode else TextMode)
  | None => None
  end.

(** What the component does to the outside.  A request to [/send] is recorded
    with the recording flag and the mode of the session at the moment of the
    call. *)
Inductive Effect : Type :=
| ConsoleLog (what : string)
| ConsoleError (what : string)
| FetchHealth
| FetchSend (uid : Z) (body : OutboundFrame)
    (recording : bool) (mode : option Mode)
| EventSourceNew (h : handle) (uid : Z) (is_audio : bool)
| EventSourceClose (h : handle)
| AudioContextNew (h : handle) (rate : Z)
| AudioContextClose (h : handle)
| WorkletNodeNew (h : handle) (processor : string)
| NodeConnect (h : handle)
| NodeDisconnect (h : handle)
| GetUserMedia (h : handle)
| TracksStop (h : handle)
| PortPostMessage (h : handle) (msg : PortMessage)
| SetInterval (h : handle) (ms : Z)
| ClearInterval (h : handle).

Definition welcome : string :=
  "Hello! I'm your SkillBridge AI assistant. I'm here to help you with skill development, mentorship, learning paths, and connecting with the right opportunities. How can I assist you today?".

(** The state at mount, [date] the instant of the first render. *)
Definition initial (date : Z) : State :=
  mkState [mkMessage "1" (JStr welcome) ai date None]
    EmptyString false false false false false
    None None None None None None None [] None 0%nat.

(** ** Computations of the component

    A function of the component reads and writes the state, may throw, and
    leaves effects: a state monad with exceptions and a log. *)

Inductive completion (A : Type) : Type :=
| Normal (a : A)
| Thrown (error : string).

Arguments Normal {A} a.
Arguments Thrown {A} error.

Record Outcome (A : Type) : Type := mkOutcome {
  result : completion A;
  final : State;
  effects : list Effect
}.

Arguments mkOutcome {A} result final effects.
Arguments result {A} o.
Arguments final {A} o.
Arguments effects {A} o.

Definition M (A : Type) : Type := State -> Outcome A.

Definition ret {A : Type} (a : A) : M A :=
  fun s => mkOutcome (Normal a) s [].

Definition bind {A B : Type} (m : M A) (k : A -> M B) : M B :=
  fun s =>
    match m s with
    | mkOutcome (Normal a) s1 e1 =>
        match k a s1 with
        | mkOutcome r s2 e2 => mkOutcome r s2 (e1 ++ e2)
        end
    | mkOutcome (Thrown error) s1 e1 => mkOutcome (Thrown error) s1 e1
    end.

Definition throw {A : Type} (e : string) : M A :=
  fun s => mkOutcome (Thrown e) s [].

(** [try { body } catch (error) { handler error }] *)
Definition try_catch {A : Type} (body : M A) (handler : string -> M A) : M A :=
  fun s =>
    match body s with
    | mkOutcome (Normal a) s1 e1 => mkOutcome (Normal a) s1 e1
    | mkOutcome (Thrown error) s1 e1 =>
        match handler error s1 with
        | mkOutcome r s2 e2 => mkOutcome r s2 (e1 ++ e2)
        end
    end.

Definition get : M State := fun s => mkOutcome (Normal s) s [].

Definition modify (f : State -> State) : M unit :=
  fun s => mkOutcome (Normal tt) (f s) [].

Definition emit (e : Effect) : M unit :=
  fun s => mkOutcome (Normal tt) s [e].

Definition fresh : M handle :=
  fun s =>
    mkOutcome (Normal (next_handle s)) (set_next_handle (S (next_handle s)) s) [].

Definition when (b : bool) (m : M unit) : M unit :=
  if b then m else ret tt.

Declare Scope page_scope.
Delimit Scope page_scope with page.

Notation "x <- m ;; k" := (bind m (fun x => k))
  (at level 61, m at next level, right associativity) : page_scope.
Notation "m ;; k" := (bind m (fun _ => k))
  (at level 61, right associativity) : page_scope.

Local Open Scope page_scope.

(** The state and the effects a computation leaves when started in [s]. *)
Definition exec {A : Type} (m : M A) (s : State) : State := final (m s).

(** *** Setters of the state variables and the console *)

Definition setMessages (f : list Message -> list Message) : M unit :=
  modify (fun s => set_messages (f (messages s)) s).

Definition setInputValue (v : string) : M unit := modify (set_inputValue v).
Definition setIsConnected (v : bool) : M unit := modify (set_isConnected v).
Definition setIsVoiceEnabled (v : bool) : M unit := modify (set_isVoiceEnabled v).
Definition setIsRecording (v : bool) : M unit := modify (set_isRecording v).
Definition setIsMuted (v : bool) : M unit := modify (set_isMuted v).
Definition setIsTyping (v : bool) : M unit := modify (set_isTyping v).

Definition console_log (what : string) : M unit := emit (ConsoleLog what).
Definition console_error (what : string) : M unit := emit (ConsoleError what).

(** [Date.now().toString()] *)
Definition Date_toString (now : Z) : string :=
  NilZero.string_of_int (Z.to_int now).

(** A message of the assistant built at the instant [now]: its [id] is
    [Date.now().toString()], its [timestamp] is [new Date()]. *)
Definition notice (now : Z) (text : string) : Message :=
  mkMessage (Date_toString now) (JStr text) ai now None.

(** *** The platform's [fetch] *)

Record Response : Type := mkResponse {
  ok : bool;
  status : Z
}.

Inductive FetchResult : Type :=
| Responded (response : Response)
| Rejected (reason : string).

Definition fetch_health (outcome : FetchResult) : M Response :=
  emit FetchHealth ;;
  match outcome with
  | Responded response => ret response
  | Rejected reason => throw reason
  end.

Definition fetch_send (uid : Z) (body : OutboundFrame) (outcome : FetchResult)
  : M Response :=
  s <- get ;;
  emit (FetchSend uid body (isRecording s) (session_mode s)) ;;
  match outcome with
  | Responded response => ret response
  | Rejected reason => throw reason
  end.

(** ** Audio worklets *)

(** [startAudioPlayerWorklet]; [failure] is the error with which loading the
    processor module rejects, if it does. *)
Definition startAudioPlayerWorklet (failure : option string)
  : M (PlayerNode * AudioContext) :=
  ctx <- fresh ;;
  emit (AudioContextNew ctx 24000) ;;
  match failure with
  | Some e => throw e
  | None =>
      node <- fresh ;;
      emit (WorkletNodeNew node "pcm-player-processor") ;;
      emit (NodeConnect node) ;;
      ret (mkPlayerNode node [] None true, mkAudioContext ctx 24000)
  end.

(** [startAudioRecorderWorklet]; [failure] is the error of the module load or
    of [getUserMedia], if one of them rejects.  The handler given to it is
    [audioRecorderHandler] below, run on every frame the recorder posts. *)
Definition startAudioRecorderWorklet (failure : option string)
  : M (handle * AudioContext * handle) :=
  ctx <- fresh ;;
  emit (AudioContextNew ctx 16000) ;;
  match failure with
  | Some e => throw e
  | None =>
      micStream <- fresh ;;
      emit (GetUserMedia micStream) ;;
      node <- fresh ;;
      emit (WorkletNodeNew node "pcm-recorder-processor") ;;
      ret (node, mkAudioContext ctx 16000, micStream)
  end.

(** The value of [rms] in [audioRecorderHandler]. *)
Definition rms (samples : Int16Array) : Number.number :=
  Number.sqrt
    (Number.div
       (fold_left
          (fun sum sample =>
             Number.add sum
               (Number.mul (Number.of_Z sample) (Number.of_Z sample)))
          samples (Number.of_Z 0))
       (Number.of_Z (Z.of_nat (List.length samples)))).

Definition audioRecorderHandler (pcmData : Int16Array) : M unit :=
  let samples := pcmData in
  if Number.gt (rms samples) (Number.of_Z 100) then
    modify (fun s =>
              set_audioBufferRef (audioBufferRef s ++ [Uint8Array_of pcmData]) s) ;;
    s <- get ;;
    match bufferTimerRef s with
    | None =>
        timer <- fresh ;;
        emit (SetInterval timer 200) ;;
        modify (set_bufferTimerRef (Some timer))
    | Some _ => ret tt
    end
  else ret tt.

(** The message handler of the recorder node: a frame of float samples is
    converted, then handed to [audioRecorderHandler]. *)
Definition recorder_onmessage (event_data : list Number.number) : M unit :=
  let pcmData := convertFloat32ToPCM event_data in
  audioRecorderHandler pcmData.

Definition audio_frame (combinedBuffer : list byte) : OutboundFrame :=
  mkFrame "audio/pcm" (arrayBufferToBase64 combinedBuffer).

(** [sendBufferedAudio], the callback of the flush timer; [outcome] is what the
    request comes to when one is made. *)
Definition sendBufferedAudio (r : Render) (outcome : FetchResult) : M unit :=
  s <- get ;;
  if (List.length (audioBufferRef s) =? 0)%nat then ret tt
  else
    (* a buffer of the total length, filled chunk after chunk *)
    let combinedBuffer := List.concat (audioBufferRef s) in
    when (r_isConnected r && (0 <? List.length combinedBuffer)%nat)
      (try_catch
         (response <- fetch_send (userId r) (audio_frame combinedBuffer) outcome ;;
          if ok response
          then console_log "[CLIENT TO AGENT] sent audio:"
          else console_error "Failed to send audio:")
         (fun error => console_error "Error sending audio:")) ;;
    modify (set_audioBufferRef []).

(** ** The connection to the agent server *)

Definition append_message (m : Message) : M unit :=
  setMessages (fun prev => prev ++ [m]).

(** [if (eventSourceRef.current) { eventSourceRef.current.close() }] *)
Definition close_eventSource : M unit :=
  s <- get ;;
  match eventSourceRef s with
  | Some es =>
      emit (EventSourceClose (es_handle es)) ;;
      modify (set_eventSourceRef
                (Some (mkEventSource (es_handle es) (es_is_audio es) true)))
  | None => ret tt
  end.

Definition unreachable : string :=
  "Server not reachable. Make sure your Python server is running on http://127.0.0.1:8000".

(** [connectToServer(audioMode)]; [health] is what the liveness request comes
    to and [now] the instant at which a failure is reported.  The handlers it
    installs on the stream are [onopen], [onmessage] and [onerror] below; they
    see the render [r] of this call. *)
Definition connectToServer (r : Render) (audioMode : bool)
    (health : FetchResult) (now : Z) : M unit :=
  try_catch
    (console_log "Connecting to server" ;;
     close_eventSource ;;
     try_catch
       (healthResponse <- fetch_health health ;;
        if negb (ok healthResponse) then throw "Server not available"
        else ret tt)
       (fun error => throw unreachable) ;;
     console_log "Connecting to:" ;;
     eventSource <- fresh ;;
     emit (EventSourceNew eventSource (userId r) audioMode) ;;
     modify (set_eventSourceRef (Some (mkEventSource eventSource audioMode false))))
    (fun errorMsg =>
       console_error "Connection failed:" ;;
       setIsConnected false ;;
       append_message
         (notice now ("❌ Failed to connect to server. " ++ errorMsg)%string)).

Definition onopen (audioMode : bool) (now : Z) : M unit :=
  setIsConnected true ;;
  console_log "Connected to SkillBridge AI" ;;
  when (negb audioMode)
    (append_message
       (notice now
          ("✅ Connected to SkillBridge AI "
           ++ (if audioMode then "(Voice Mode)" else "(Text Mode)"))%string)).

Definition onerror (now : Z) : M unit :=
  console_error "EventSource error:" ;;
  setIsConnected false ;;
  append_message
    (notice now "❌ Connection lost. Please check server and try reconnecting.").

(** [audioPlayerNodeRef.current.port.postMessage(msg)], the node being the one
    the reference holds. *)
Definition player_postMessage (msg : PortMessage) : M unit :=
  s <- get ;;
  match audioPlayerNodeRef s with
  | Some node =>
      emit (PortPostMessage (node_handle node) msg) ;;
      modify (set_audioPlayerNodeRef
                (Some match msg with
                      | EndOfAudio => interrupt node
                      | Audio audioBuffer => enqueue audioBuffer node
                      end))
  | None => ret tt
  end.

Definition is_some {A : Type} (o : option A) : bool :=
  match o with Some _ => true | None => false end.

Section Inbound.

(** [JSON.parse]: [None] when it throws a [SyntaxError]. *)
Variable JSON_parse : string -> option json.

(** The conversion to a string of a value that is not a string. *)
Variable ToString_other : json -> string.

Definition ToString (v : json) : string :=
  match v with
  | JStr s => s
  | _ => ToString_other v
  end.

(** [a + b]: concatenation as soon as an operand is a string or an object
    (whose primitive value is a string), else the sum of the numbers. *)
Definition plus (a b : json) : json :=
  let stringlike v :=
    match v with JStr _ | JArr _ | JObj _ => true | _ => false end in
  if stringlike a || stringlike b
  then JStr (ToString a ++ ToString b)%string
  else JNum (Number.add (ToNumber_primitive a) (ToNumber_primitive b)).

Definition read (v : json) (k : string) : M (option json) :=
  match member v k with
  | Some x => ret x
  | None => throw "TypeError"
  end.

(** An update of [messages] that the handler asks for:
    [prev => [...prev, newMessage]], and the update of an open message,
    [prev => prev.map(...)], which reads [currentMessageIdRef.current] when
    it is run.  React runs an update when it next renders the page, after
    the handlers of the events that arrived until then, unless the component
    has nothing pending, in which case it may run it as soon as it is asked
    for. *)
Inductive Update : Type :=
| AppendMessage (newMessage : Message)
| AppendText (text : json).

(** What the update of a text delta does to one message of the transcript
    when the message [current] is open. *)
Definition append_text (current : string) (text : json) (msg : Message)
  : Message :=
  if String.eqb (id msg) current
  then mkMessage (id msg) (plus (content msg) text)
         (sender msg) (timestamp msg) (type msg)
  else msg.

(** An update run when the pointer holds [current]; [msg.id === null] holds
    of no message. *)
Definition run_update (current : option string) (update : Update)
    (prev : list Message) : list Message :=
  match update with
  | AppendMessage newMessage => prev ++ [newMessage]
  | AppendText text =>
      match current with
      | Some current => map (append_text current text) prev
      | None => map (fun msg => msg) prev
      end
  end.

(** The body of [eventSource.onmessage]; [event_data] is [event.data],
    [random_id] the value of [Math.random().toString(36).substring(7)] should
    the handler ask for it, [now] the instant.  The references are written at
    once; the updates of [messages] it asks for are returned, to be run by
    [commit]. *)
Definition handler (r : Render) (event_data : string) (random_id : string)
    (now : Z) : M (list Update) :=
  try_catch
    (match JSON_parse event_data with
     | None => throw "SyntaxError"
     | Some data =>
         console_log "Received data:" ;;
         turn_complete <- read data "turn_complete" ;;
         if strictly_true turn_complete then
           setIsTyping false ;;
           modify (set_currentMessageIdRef None) ;;
           console_log "Turn completed" ;;
           ret []
         else
           interrupted <- read data "interrupted" ;;
           if strictly_true interrupted then
             setIsTyping false ;;
             player_postMessage EndOfAudio ;;
             console_log "Turn interrupted" ;;
             ret []
           else
             mime <- read data "mime_type" ;;
             payload <- read data "data" ;;
             s <- get ;;
             when (strictly_string mime "audio/pcm" && truthy payload
                   && is_some (audioPlayerNodeRef s) && negb (r_isMuted r))
               (console_log "Received audio data:" ;;
                match payload with
                | Some base64 =>
                    match base64ToArray (ToString base64) with
                    | Some audioBuffer => player_postMessage (Audio audioBuffer)
                    | None => throw "InvalidCharacterError"
                    end
                | None => ret tt
                end) ;;
             if strictly_string mime "text/plain" && truthy payload then
               setIsTyping true ;;
               s <- get ;;
               match payload, currentMessageIdRef s with
               | Some text, None =>
                   modify (set_currentMessageIdRef (Some random_id)) ;;
                   ret [AppendMessage (mkMessage random_id text ai now None)]
               | Some text, Some _ => ret [AppendText text]
               | None, _ => ret []
               end
             else ret []
     end)
    (fun error => console_error "Error parsing message:" ;; ret []).

(** React runs the updates asked for and not yet run, in the order of the
    requests, each seeing what the pointer holds now. *)
Definition commit (updates : list Update) : M unit :=
  match updates with
  | [] => ret tt
  | _ :: _ =>
      s <- get ;;
      setMessages
        (fun prev =>
           fold_left (fun acc update => run_update (currentMessageIdRef s) update acc)
             updates prev)
  end.

(** The handler on the events that arrive before React runs the updates they
    ask for, in order, and then these updates. *)
Fixpoint handlers (r : Render) (events : list (string * string * Z))
  : M (list Update) :=
  match events with
  | [] => ret []
  | (event_data, random_id, now) :: rest =>
      updates <- handler r event_data random_id now ;;
      later <- handlers r rest ;;
      ret (updates ++ later)
  end.

Definition onmessage_batch (r : Render) (events : list (string * string * Z))
  : M unit :=
  updates <- handlers r events ;;
  commit updates.

(** The events of a stream, in batches: React runs the updates after each
    batch.  How the events fall into batches is decided by React and by the
    moments at which the events arrive. *)
Fixpoint onmessage_batches (r : Render)
    (batches : list (list (string * string * Z))) : M unit :=
  match batches with
  | [] => ret tt
  | events :: rest => onmessage_batch r events ;; onmessage_batches r rest
  end.

(** [eventSource.onmessage] on an event whose updates React runs before the
    next event is handled. *)
Definition onmessage (r : Render) (event_data : string) (random_id : string)
    (now : Z) : M unit :=
  updates <- handler r event_data random_id now ;;
  commit updates.

(** The handler run on the events of a stream, one after the other, the
    updates of each run before the next is handled. *)
Fixpoint onmessages (r : Render) (events : list (string * string * Z))
  : M unit :=
  match events with
  | [] => ret tt
  | (event_data, random_id, now) :: rest =>
      onmessage r event_data random_id now ;;
      onmessages r rest
  end.

End Inbound.

(** ** The voice conversation *)

Definition startVoiceConversation (r : Render)
    (playerFailure recorderFailure : option string)
    (health : FetchResult) (connect_time now : Z) : M unit :=
  try_catch
    (console_log "Starting voice conversation" ;;
     player <- startAudioPlayerWorklet playerFailure ;;
     modify (set_audioPlayerNodeRef (Some (fst player))) ;;
     modify (set_audioPlayerContextRef (Some (snd player))) ;;
     console_log "Audio player worklet started" ;;
     recorder <- startAudioRecorderWorklet recorderFailure ;;
     modify (set_audioRecorderNodeRef (Some (fst (fst recorder)))) ;;
     modify (set_audioRecorderContextRef (Some (snd (fst recorder)))) ;;
     modify (set_micStreamRef (Some (snd recorder))) ;;
     console_log "Audio recorder worklet started" ;;
     setIsVoiceEnabled true ;;
     setIsRecording true ;;
     close_eventSource ;;
     connectToServer r true health connect_time ;;
     append_message
       (notice now
          "🎤 Voice conversation started - Speak naturally, AI is listening..."))
    (fun error =>
       console_error "Error starting voice conversation:" ;;
       append_message
         (notice now
            "❌ Failed to start voice conversation. Please check microphone permissions and try again.")).

(** [stopVoiceConversation] when no frame of the recorder arrives while it
    waits; [outcome] is what the request of the flush comes to, [health] what
    the liveness request of the reconnection comes to. *)
Definition stopVoiceConversation (r : Render) (outcome health : FetchResult)
    (connect_time now : Z) : M unit :=
  console_log "Stopping voice conversation" ;;
  setIsRecording false ;;
  setIsVoiceEnabled false ;;
  s <- get ;;
  match bufferTimerRef s with
  | Some timer =>
      emit (ClearInterval timer) ;;
      modify (set_bufferTimerRef None)
  | None => ret tt
  end ;;
  s <- get ;;
  when (0 <? List.length (audioBufferRef s))%nat (sendBufferedAudio r outcome) ;;
  s <- get ;;
  match micStreamRef s with
  | Some micStream =>
      emit (TracksStop micStream) ;;
      modify (set_micStreamRef None)
  | None => ret tt
  end ;;
  s <- get ;;
  match audioPlayerContextRef s with
  | Some ctx =>
      emit (AudioContextClose (ctx_handle ctx)) ;;
      modify (set_audioPlayerContextRef None)
  | None => ret tt
  end ;;
  s <- get ;;
  match audioRecorderContextRef s with
  | Some ctx =>
      emit (AudioContextClose (ctx_handle ctx)) ;;
      modify (set_audioRecorderContextRef None)
  | None => ret tt
  end ;;
  modify (set_audioPlayerNodeRef None) ;;
  modify (set_audioRecorderNodeRef None) ;;
  close_eventSource ;;
  connectToServer r false health connect_time ;;
  append_message
    (notice now "🔴 Voice conversation stopped - Switched to text mode").

Definition disconnectFromServer (r : Render) (outcome health : FetchResult)
    (connect_time stop_time now : Z) : M unit :=
  when (r_isVoiceEnabled r)
    (stopVoiceConversation r outcome health connect_time stop_time) ;;
  s <- get ;;
  match eventSourceRef s with
  | Some es =>
      emit (EventSourceClose (es_handle es)) ;;
      modify (set_eventSourceRef None)
  | None => ret tt
  end ;;
  setIsConnected false ;;
  append_message (notice now "🔴 Disconnected from SkillBridge AI").

(** ** Text messages *)

(** A string of the page is held as the bytes of its UTF-8 encoding.  What
    [trim] strips is the white space and the line terminators of ECMAScript:
    U+0009 to U+000D, U+0020, U+00A0, U+1680, U+2000 to U+200A, U+2028,
    U+2029, U+202F, U+205F, U+3000 and U+FEFF, which take one, two or three
    bytes. *)

(** U+0009 to U+000D and U+0020 are one byte each. *)
Definition is_whitespace1 (c : ascii) : bool :=
  let n := N_of_ascii c in
  ((9 <=? n) && (n <=? 13) || (n =? 32))%N.

(** U+00A0 is C2 A0. *)
Definition is_whitespace2 (c1 c2 : ascii) : bool :=
  ((N_of_ascii c1 =? 194) && (N_of_ascii c2 =? 160))%N.

(** U+1680 is E1 9A 80; U+2000 to U+200A are E2 80 80 to E2 80 8A; U+2028,
    U+2029 and U+202F are E2 80 A8, E2 80 A9 and E2 80 AF; U+205F is
    E2 81 9F; U+3000 is E3 80 80; U+FEFF is EF BB BF. *)
Definition is_whitespace3 (c1 c2 c3 : ascii) : bool :=
  let a := N_of_ascii c1 in
  let b := N_of_ascii c2 in
  let c := N_of_ascii c3 in
  ((a =? 225) && (b =? 154) && (c =? 128)
   || (a =? 226) && (b =? 128)
      && ((128 <=? c) && (c <=? 138) || (c =? 168) || (c =? 169) || (c =? 175))
   || (a =? 226) && (b =? 129) && (c =? 159)
   || (a =? 227) && (b =? 128) && (c =? 128)
   || (a =? 239) && (b =? 187) && (c =? 191))%N.

Fixpoint trimStart (s : string) : string :=
  match s with
  | String c1 rest1 =>
      if is_whitespace1 c1 then trimStart rest1
      else
        match rest1 with
        | String c2 rest2 =>
            if is_whitespace2 c1 c2 then trimStart rest2
            else
              match rest2 with
              | String c3 rest3 =>
                  if is_whitespace3 c1 c2 c3 then trimStart rest3 else s
              | EmptyString => s
              end
        | EmptyString => s
        end
  | EmptyString => EmptyString
  end.

Definition reverse (s : string) : string :=
  string_of_list_ascii (rev (list_ascii_of_string s)).

(** [trimEnd] on the reversed string: the bytes of a character come last
    byte first. *)
Fixpoint trimEnd_reversed (s : string) : string :=
  match s with
  | String c3 rest1 =>
      if is_whitespace1 c3 then trimEnd_reversed rest1
      else
        match rest1 with
        | String c2 rest2 =>
            if is_whitespace2 c2 c3 then trimEnd_reversed rest2
            else
              match rest2 with
              | String c1 rest3 =>
                  if is_whitespace3 c1 c2 c3 then trimEnd_reversed rest3
                  else s
              | EmptyString => s
              end
        | EmptyString => s
        end
  | EmptyString => EmptyString
  end.

Definition trimEnd (s : string) : string :=
  reverse (trimEnd_reversed (reverse s)).

(** [s.trim()] *)
Definition trim (s : string) : string := trimEnd (trimStart s).

Definition text_frame (text : string) : OutboundFrame :=
  mkFrame "text/plain" text.

(** [sendMessage] up to the [await] of its request: the result tells whether
    a request is pending. *)
Definition sendMessage_request (r : Render) (now : Z) : M bool :=
  if String.eqb (trim (r_inputValue r)) EmptyString || negb (r_isConnected r)
  then ret false
  else
    let userMessage :=
      mkMessage (Date_toString now) (JStr (r_inputValue r)) user now None in
    append_message userMessage ;;
    s <- get ;;
    emit (FetchSend (userId r) (text_frame (r_inputValue r))
            (isRecording s) (session_mode s)) ;;
    ret true.

(** [sendMessage] from the moment its request is settled. *)
Definition sendMessage_response (outcome : FetchResult) (now : Z) : M unit :=
  try_catch
    (response <-
       match outcome with
       | Responded response => ret response
       | Rejected reason => throw reason
       end ;;
     if negb (ok response) then throw "HTTP error! status:"
     else
       setInputValue EmptyString ;;
       console_log "Text message sent successfully")
    (fun error =>
       console_error "Error sending message:" ;;
       append_message
         (notice now "❌ Failed to send message. Please try again.")).

Definition sendMessage (r : Render) (now : Z) (outcome : FetchResult)
    (failure_time : Z) : M unit :=
  pending <- sendMessage_request r now ;;
  when pending (sendMessage_response outcome failure_time).

Definition toggleMute (r : Render) (now : Z) : M unit :=
  s <- get ;;
  match audioPlayerNodeRef s, audioPlayerContextRef s with
  | Some node, Some _ =>
      (if r_isMuted r
       then
         emit (NodeConnect (node_handle node)) ;;
         modify (set_audioPlayerNodeRef (Some (set_output true node)))
       else
         emit (NodeDisconnect (node_handle node)) ;;
         modify (set_audioPlayerNodeRef (Some (set_output false node)))) ;;
      setIsMuted (negb (r_isMuted r)) ;;
      append_message
        (notice now
           ("🔊 Audio " ++ (if r_isMuted r then "unmuted" else "muted"))%string)
  | _, _ => ret tt
  end.

(** ** Observations *)

(** The events of the stream as the server writes them. *)
Inductive InboundEvent : Type :=
| TurnComplete
| Interrupted
| TextDelta (text : string)
| AudioChunk (pcmBase64 : string).

Definition wire (e : InboundEvent) : json :=
  match e with
  | TurnComplete => JObj [("turn_complete", JBool true)]
  | Interrupted => JObj [("interrupted", JBool true)]
  | TextDelta text => JObj [("mime_type", JStr "text/plain"); ("data", JStr text)]
  | AudioChunk pcmBase64 =>
      JObj [("mime_type", JStr "audio/pcm"); ("data", JStr pcmBase64)]
  end.

(** A decoded value carries the mark of one of the four kinds of event. *)
Definition recognized (v : json) : bool :=
  match member v "turn_complete", member v "interrupted", member v "mime_type" with
  | Some turn_complete, Some interrupted, Some mime =>
      strictly_true turn_complete || strictly_true interrupted
      || strictly_string mime "text/plain" || strictly_string mime "audio/pcm"
  | _, _, _ => false
  end.

(** A value marked as audio, and as nothing that is handled before audio,
    whose data, if any, is not base64 once converted by [to_string]. *)
Definition undecodable_audio (to_string : json -> string) (v : json) : Prop :=
  exists turn_complete interrupted mime payload,
    member v "turn_complete" = Some turn_complete
    /\ member v "interrupted" = Some interrupted
    /\ member v "mime_type" = Some mime
    /\ member v "data" = Some payload
    /\ strictly_true turn_complete = false
    /\ strictly_true interrupted = false
    /\ strictly_string mime "audio/pcm" = true
    /\ (forall base64, payload = Some base64 ->
                       base64ToArray (to_string base64) = None).

(** A value that is neither a turn completion nor an interruption and whose
    data is missing or falsy: [undefined], [null], [false], [0], [NaN] or the
    empty string. *)
Definition without_data (v : json) : Prop :=
  exists turn_complete interrupted mime payload,
    member v "turn_complete" = Some turn_complete
    /\ member v "interrupted" = Some interrupted
    /\ member v "mime_type" = Some mime
    /\ member v "data" = Some payload
    /\ strictly_true turn_complete = false
    /\ strictly_true interrupted = false
    /\ truthy payload = false.

(** An event that is no JSON, or JSON of none of the kinds, or that has no
    data, or audio that does not decode. *)
Definition malformed (to_string : json -> string) (parsed : option json) : Prop :=
  match parsed with
  | None => True
  | Some v =>
      recognized v = false \/ without_data v \/ undecodable_audio to_string v
  end.

Definition is_console (e : Effect) : bool :=
  match e with
  | ConsoleLog _ | ConsoleError _ => true
  | _ => false
  end.

(** The audio frames among the requests, each with the recording flag and the
    mode recorded when it was sent. *)
Fixpoint audio_sends (effs : list Effect)
  : list (OutboundFrame * bool * option Mode) :=
  match effs with
  | [] => []
  | FetchSend _ body recording mode :: rest =>
      if String.eqb (mime_type body) "audio/pcm"
      then (body, recording, mode) :: audio_sends rest
      else audio_sends rest
  | _ :: rest => audio_sends rest
  end.

(** The streams opened and the worklet nodes created. *)
Definition reconnects (effs : list Effect) : nat :=
  List.length
    (filter (fun e => match e with EventSourceNew _ _ _ => true | _ => false end)
       effs).

Definition worklets_created (effs : list Effect) : nat :=
  List.length
    (filter (fun e => match e with WorkletNodeNew _ _ => true | _ => false end)
       effs).

Definition health_ok (health : FetchResult) : bool :=
  match health with
  | Responded response => ok response
  | Rejected _ => false
  end.

(** No pipeline was started, or the last one was stopped. *)
Definition never_started (s : State) : Prop :=
  isVoiceEnabled s = false /\ isRecording s = false
  /\ audioPlayerNodeRef s = None /\ audioPlayerContextRef s = None
  /\ audioRecorderNodeRef s = None /\ audioRecorderContextRef s = None
  /\ micStreamRef s = None /\ audioBufferRef s = [] /\ bufferTimerRef s = None.

(** The recorder handler on the frames of a capture, in order. *)
Fixpoint capture (frames : list Int16Array) : M unit :=
  match frames with
  | [] => ret tt
  | pcmData :: rest => audioRecorderHandler pcmData ;; capture rest
  end.

(** The reading of the claims that the code is compared with. *)

(** Audio frames leave only in audio mode and while recording. *)
Definition audio_only_while_recording (effs : list Effect) : Prop :=
  forall frame recording mode,
    In (frame, recording, mode) (audio_sends effs) ->
    recording = true /\ mode = Some AudioMode.

(** What a flush sends when the buffer is not empty and the flushing function
    saw the page connected; [recording] is the flag at that moment. *)
Definition flushed (r : Render) (s : State) (recording : bool)
  : list (OutboundFrame * bool * option Mode) :=
  let combinedBuffer := List.concat (audioBufferRef s) in
  if negb (List.length (audioBufferRef s) =? 0)%nat
     && r_isConnected r && (0 <? List.length combinedBuffer)%nat
  then [(audio_frame combinedBuffer, recording, session_mode s)]
  else [].

(** A computation that sends no audio. *)
Definition quiet {A : Type} (m : M A) : Prop :=
  forall s, audio_sends (effects (m s)) = [].

(** Starting on live pipelines in audio mode leaves them alone and does not
    reconnect. *)
Definition start_is_idempotent : Prop :=
  forall r health t1 t2 s,
    session_mode s = Some AudioMode ->
    is_some (audioPlayerNodeRef s) = true ->
    is_some (audioRecorderNodeRef s) = true ->
    let o := startVoiceConversation r None None health t1 t2 s in
    audioPlayerNodeRef (final o) = audioPlayerNodeRef s
    /\ audioRecorderNodeRef (final o) = audioRecorderNodeRef s
    /\ worklets_created (effects o) = 0%nat
    /\ reconnects (effects o) = 0%nat.

(** Stopping what was never started returns and changes nothing. *)
Definition stop_is_inert : Prop :=
  forall r outcome health t1 t2 s,
    never_started s ->
    let o := stopVoiceConversation r outcome health t1 t2 s in
    result o = Normal tt /\ final o = s.

(** An interruption empties the playback queue, clears the typing flag and
    closes the message being built. *)
Definition interruption_closes_message
    (JSON_parse : string -> option json) (ToString_other : json -> string)
  : Prop :=
  forall r event_data random_id now s,
    JSON_parse event_data = Some (wire Interrupted) ->
    let o := onmessage JSON_parse ToString_other r event_data random_id now s in
    isTyping (final o) = false
    /\ (forall node, audioPlayerNodeRef (final o) = Some node ->
                     queue node = [] /\ playing node = None)
    /\ currentMessageIdRef (final o) = None.

(** An event whose text is no JSON, or whose value is the wire form of none
    of the four events, is dropped: the handler returns, the state is the one
    before and only the console was written to. *)
Definition unrecognized_is_dropped
    (JSON_parse : string -> option json) (ToString_other : json -> string)
  : Prop :=
  forall r event_data random_id now s,
    (forall e, JSON_parse event_data <> Some (wire e)) ->
    let o := onmessage JSON_parse ToString_other r event_data random_id now s in
    result o = Normal tt
    /\ final o = s
    /\ forallb is_console (effects o) = true.

(** The sextets of a binary string and the padding of its encoding. *)
Fixpoint sextets (l : list ascii) : list N :=
  match l with
  | [] => []
  | [a] => [Base64.code a / 4; Base64.code a mod 4 * 16]
  | [a; b] =>
      [Base64.code a / 4;
       Base64.code a mod 4 * 16 + Base64.code b / 16;
       Base64.code b mod 16 * 4]
  | a :: b :: c :: rest =>
      Base64.code a / 4
      :: Base64.code a mod 4 * 16 + Base64.code b / 16
      :: Base64.code b mod 16 * 4 + Base64.code c / 64
      :: Base64.code c mod 64
      :: sextets rest
  end%N.

Definition padding (l : list ascii) : list ascii :=
  match (List.length l mod 3)%nat with
  | 1%nat => [Base64.pad_char; Base64.pad_char]
  | 2%nat => [Base64.pad_char]
  | _ => []
  end.

(** The value that [convertFloat32ToPCM] stores, before the store narrows
    it. *)
Definition clamp (y : Number.number) : Number.number :=
  Number.Math_max (Number.of_Z (-32768)) (Number.Math_min (Number.of_Z 32767) y).

(** ** A session

    The states of one tab: mounted, connected in text mode, voice started,
    the user speaking, the assistant answering. *)

Module Session.

Definition healthy : FetchResult := Responded (mkResponse true 200).
Definition down : FetchResult := Rejected "Failed to fetch".
Definition tab : Z := 7.

Definition mounted : State := initial 0.

Definition connected : State :=
  exec (onopen false 2)
    (exec (connectToServer (render_of tab mounted) false healthy 1) mounted).

Definition voice_live : State :=
  exec (onopen true 5)
    (exec (startVoiceConversation (render_of tab connected) None None healthy 3 4)
       connected).

Definition speaking : State :=
  exec (audioRecorderHandler [1000; -1000; 500]) voice_live.

(** The text of the events of this session, and a stand-in for [JSON.parse]
    that decodes these texts and rejects every other one. *)
Definition quoted (k : string) : string :=
  let q := String (ascii_of_nat 34) EmptyString in
  (q ++ k ++ q)%string.

Definition turn_complete_text : string :=
  ("{" ++ quoted "turn_complete" ++ ":true}")%string.

Definition interrupted_text : string :=
  ("{" ++ quoted "interrupted" ++ ":true}")%string.

Definition text_delta_text (text : string) : string :=
  ("{" ++ quoted "mime_type" ++ ":" ++ quoted "text/plain" ++ ","
   ++ quoted "data" ++ ":" ++ quoted text ++ "}")%string.

Definition audio_chunk_text (pcmBase64 : string) : string :=
  ("{" ++ quoted "mime_type" ++ ":" ++ quoted "audio/pcm" ++ ","
   ++ quoted "data" ++ ":" ++ quoted pcmBase64 ++ "}")%string.

(** A text part whose data is [null], and one whose data is the number 5
    and not a string. *)
Definition text_without_data_text : string :=
  ("{" ++ quoted "mime_type" ++ ":" ++ quoted "text/plain" ++ ","
   ++ quoted "data" ++ ":null}")%string.


Definition text_number_text : string :=
  ("{" ++ quoted "mime_type" ++ ":" ++ quoted "text/plain" ++ ","
   ++ quoted "data" ++ ":5}")%string.

Definition parse (event_data : string) : option json :=
  if String.eqb event_data turn_complete_text then Some (wire TurnComplete)
  else if String.eqb event_data interrupted_text then Some (wire Interrupted)
  else if String.eqb event_data (text_delta_text "A") then Some (wire (TextDelta "A"))
  else if String.eqb event_data (text_delta_text "B") then Some (wire (TextDelta "B"))
  else if String.eqb event_data (text_delta_text "Hello")
  then Some (wire (TextDelta "Hello"))
  else if String.eqb event_data (audio_chunk_text "SGVsbG8=")
  then Some (wire (AudioChunk "SGVsbG8="))
  else if String.eqb event_data (audio_chunk_text "!!!")
  then Some (wire (AudioChunk "!!!"))
  else if String.eqb event_data text_without_data_text
  then Some (JObj [("mime_type", JStr "text/plain"); ("data", JNull)])
  else if String.eqb event_data text_number_text
  then Some (JObj [("mime_type", JStr "text/plain");
                   ("data", JNum (Number.of_Z 5))])
  else if String.eqb event_data "null" then Some JNull
  else if String.eqb event_data "{}" then Some (JObj [])
  else None.

(** No value that is not a string is converted in this session. *)
Definition to_string (v : json) : string := "[object Object]".

(** The assistant has begun a reply when the user starts to speak. *)
Definition answering : State :=
  exec (onmessage parse to_string (render_of tab voice_live)
          (audio_chunk_text "SGVsbG8=") "k3x9q" 7)
    (exec (onmessage parse to_string (render_of tab voice_live)
             (text_delta_text "Hello") "m1" 6)
       voice_live).

End Session.

(** ** The rest of the page: location, key presses, mount and unmount *)

(** What the browser answers to [navigator.geolocation.getCurrentPosition], or
    that it has no geolocation at all. *)
Inductive Geolocation : Type :=
| Unsupported
| Located (latitude longitude : Number.number)
| Refused.

Section Location.

(** The text of a number in a template literal, and [toFixed(6)]. *)
Variable Number_toString : Number.number -> string.
Variable toFixed6 : Number.number -> string.

(** [sendLocation], with the callback of the position it asks for. *)
Definition sendLocation (r : Render) (position : Geolocation)
    (outcome : FetchResult) (now : Z) : M unit :=
  if negb (r_isConnected r) then ret tt
  else
    match position with
    | Unsupported =>
        append_message
          (notice now "❌ Geolocation is not supported by your browser.")
    | Located lat long =>
        try_catch
          (response <-
             fetch_send (userId r)
               (text_frame
                  ("My current location: Latitude " ++ Number_toString lat
                   ++ ", Longitude " ++ Number_toString long)%string)
               outcome ;;
           when (ok response)
             (append_message
                (mkMessage (Date_toString now)
                   (JStr ("📍 Location shared: " ++ toFixed6 lat ++ ", "
                          ++ toFixed6 long)%string)
                   user now None)))
          (fun error => console_error "Error sending location:")
    | Refused =>
        append_message
          (notice now
             "❌ Unable to retrieve your location. Please check permissions.")
    end.

End Location.

(** [handleKeyPress]: Enter without Shift sends the message. *)
Definition handleKeyPress (r : Render) (key : string) (shiftKey : bool)
    (now : Z) (outcome : FetchResult) (failure_time : Z) : M unit :=
  if String.eqb key "Enter" && negb shiftKey
  then sendMessage r now outcome failure_time
  else ret tt.

(** A quick action puts its text into the input. *)
Definition quickAction (action : string) : M unit := setInputValue action.

(** The effect run at mount, and its cleanup at unmount: what the references
    hold is released; the references are left as they are. *)
Definition mount (r : Render) (health : FetchResult) (now : Z) : M unit :=
  connectToServer r false health now.

Definition unmount : M unit :=
  close_eventSource ;;
  s <- get ;;
  match bufferTimerRef s with
  | Some timer => emit (ClearInterval timer)
  | None => ret tt
  end ;;
  match micStreamRef s with
  | Some micStream => emit (TracksStop micStream)
  | None => ret tt
  end ;;
  match audioPlayerContextRef s with
  | Some ctx => emit (AudioContextClose (ctx_handle ctx))
  | None => ret tt
  end ;;
  match audioRecorderContextRef s with
  | Some ctx => emit (AudioContextClose (ctx_handle ctx))
  | None => ret tt
  end.

(** ** More observations *)

(** The frames that pass the gate of [audioRecorderHandler]. *)
Definition loud (pcmData : Int16Array) : bool :=
  Number.gt (rms pcmData) (Number.of_Z 100).

Definition timers_armed (effs : list Effect) : nat :=
  List.length
    (filter (fun e => match e with SetInterval _ _ => true | _ => false end)
       effs).

(** The requests made to the server, liveness checks included. *)
Definition requests (effs : list Effect) : nat :=
  List.length
    (filter (fun e =>
               match e with
               | FetchSend _ _ _ _ | FetchHealth => true
               | _ => false
               end)
       effs).

(** The bodies of the requests to [/send]. *)
Fixpoint sent (effs : list Effect) : list OutboundFrame :=
  match effs with
  | [] => []
  | FetchSend _ body _ _ :: rest => body :: sent rest
  | _ :: rest => sent rest
  end.

(** The audio buffers posted to the player, in the order of the posts. *)
Fixpoint audio_posts (effs : list Effect) : list ArrayBuffer :=
  match effs with
  | [] => []
  | PortPostMessage _ (Audio audioBuffer) :: rest =>
      audioBuffer :: audio_posts rest
  | _ :: rest => audio_posts rest
  end.

(** What the handler of the stream may do to the outside: write to the console
    and post to the player. *)
Definition inbound_effect (e : Effect) : bool :=
  match e with
  | ConsoleLog _ | ConsoleError _ | PortPostMessage _ _ => true
  | _ => false
  end.

(** Two states that differ at most in what the handler of the stream writes:
    the transcript, the typing flag, the pointer to the open message and the
    player node. *)
Definition same_outside_reply (s s' : State) : Prop :=
  inputValue s' = inputValue s
  /\ isConnected s' = isConnected s
  /\ isVoiceEnabled s' = isVoiceEnabled s
  /\ isRecording s' = isRecording s
  /\ isMuted s' = isMuted s
  /\ eventSourceRef s' = eventSourceRef s
  /\ audioPlayerContextRef s' = audioPlayerContextRef s
  /\ audioRecorderNodeRef s' = audioRecorderNodeRef s
  /\ audioRecorderContextRef s' = audioRecorderContextRef s
  /\ micStreamRef s' = micStreamRef s
  /\ audioBufferRef s' = audioBufferRef s
  /\ bufferTimerRef s' = bufferTimerRef s
  /\ next_handle s' = next_handle s
  /\ option_map node_handle (audioPlayerNodeRef s')
     = option_map node_handle (audioPlayerNodeRef s).

(** ** Frames that arrive while the page waits *)

(** [stopVoiceConversation] is an async function: while it waits for the
    request of the flush, for each audio context to close and for the
    liveness request of the reconnection, the recorder is not yet released
    and its handler runs on the frames that arrive.  These are the frames of
    each wait, in the order of their arrival. *)
Record Arrivals : Type := mkArrivals {
  during_flush : list Int16Array;
  during_player_close : list Int16Array;
  during_recorder_close : list Int16Array;
  during_reconnect : list Int16Array
}.

(** No frame that passes the gate of the handler arrives. *)
Definition no_voice (w : Arrivals) : Prop :=
  Forall (fun pcmData => loud pcmData = false)
    (during_flush w ++ during_player_close w ++ during_recorder_close w
     ++ during_reconnect w).

(** The two requests, the frames of [frames] arriving while each is
    pending. *)
Definition fetch_send_async (frames : list Int16Array) (uid : Z)
    (body : OutboundFrame) (outcome : FetchResult) : M Response :=
  s <- get ;;
  emit (FetchSend uid body (isRecording s) (session_mode s)) ;;
  capture frames ;;
  match outcome with
  | Responded response => ret response
  | Rejected reason => throw reason
  end.

Definition fetch_health_async (frames : list Int16Array) (outcome : FetchResult)
  : M Response :=
  emit FetchHealth ;;
  capture frames ;;
  match outcome with
  | Responded response => ret response
  | Rejected reason => throw reason
  end.

(** [sendBufferedAudio], [connectToServer], [stopVoiceConversation] and
    [disconnectFromServer] with the frames that arrive while they wait. *)
Definition sendBufferedAudio_async (frames : list Int16Array) (r : Render)
    (outcome : FetchResult) : M unit :=
  s <- get ;;
  if (List.length (audioBufferRef s) =? 0)%nat then ret tt
  else
    let combinedBuffer := List.concat (audioBufferRef s) in
    when (r_isConnected r && (0 <? List.length combinedBuffer)%nat)
      (try_catch
         (response <-
            fetch_send_async frames (userId r) (audio_frame combinedBuffer)
              outcome ;;
          if ok response
          then console_log "[CLIENT TO AGENT] sent audio:"
          else console_error "Failed to send audio:")
         (fun error => console_error "Error sending audio:")) ;;
    modify (set_audioBufferRef []).

Definition connectToServer_async (frames : list Int16Array) (r : Render)
    (audioMode : bool) (health : FetchResult) (now : Z) : M unit :=
  try_catch
    (console_log "Connecting to server" ;;
     close_eventSource ;;
     try_catch
       (healthResponse <- fetch_health_async frames health ;;
        if negb (ok healthResponse) then throw "Server not available"
        else ret tt)
       (fun error => throw unreachable) ;;
     console_log "Connecting to:" ;;
     eventSource <- fresh ;;
     emit (EventSourceNew eventSource (userId r) audioMode) ;;
     modify (set_eventSourceRef (Some (mkEventSource eventSource audioMode false))))
    (fun errorMsg =>
       console_error "Connection failed:" ;;
       setIsConnected false ;;
       append_message
         (notice now ("❌ Failed to connect to server. " ++ errorMsg)%string)).

Definition stopVoiceConversation_async (w : Arrivals) (r : Render)
    (outcome health : FetchResult) (connect_time now : Z) : M unit :=
  console_log "Stopping voice conversation" ;;
  setIsRecording false ;;
  setIsVoiceEnabled false ;;
  s <- get ;;
  match bufferTimerRef s with
  | Some timer =>
      emit (ClearInterval timer) ;;
      modify (set_bufferTimerRef None)
  | None => ret tt
  end ;;
  s <- get ;;
  when (0 <? List.length (audioBufferRef s))%nat
    (sendBufferedAudio_async (during_flush w) r outcome) ;;
  s <- get ;;
  match micStreamRef s with
  | Some micStream =>
      emit (TracksStop micStream) ;;
      modify (set_micStreamRef None)
  | None => ret tt
  end ;;
  s <- get ;;
  match audioPlayerContextRef s with
  | Some ctx =>
      emit (AudioContextClose (ctx_handle ctx)) ;;
      capture (during_player_close w) ;;
      modify (set_audioPlayerContextRef None)
  | None => ret tt
  end ;;
  s <- get ;;
  match audioRecorderContextRef s with
  | Some ctx =>
      emit (AudioContextClose (ctx_handle ctx)) ;;
      capture (during_recorder_close w) ;;
      modify (set_audioRecorderContextRef None)
  | None => ret tt
  end ;;
  modify (set_audioPlayerNodeRef None) ;;
  modify (set_audioRecorderNodeRef None) ;;
  close_eventSource ;;
  connectToServer_async (during_reconnect w) r false health connect_time ;;
  append_message
    (notice now "🔴 Voice conversation stopped - Switched to text mode").

Definition disconnectFromServer_async (w : Arrivals) (r : Render)
    (outcome health : FetchResult) (connect_time stop_time now : Z) : M unit :=
  when (r_isVoiceEnabled r)
    (stopVoiceConversation_async w r outcome health connect_time stop_time) ;;
  s <- get ;;
  match eventSourceRef s with
  | Some es =>
      emit (EventSourceClose (es_handle es)) ;;
      modify (set_eventSourceRef None)
  | None => ret tt
  end ;;
  setIsConnected false ;;
  append_message (notice now "🔴 Disconnected from SkillBridge AI").

(** The notice [startVoiceConversation] leaves when a device fails. *)
Definition start_failure_notice (now : Z) : Message :=
  notice now
    "❌ Failed to start voice conversation. Please check microphone permissions and try again.".

(** Whether the stream [old] is closed before any stream is opened. *)
Fixpoint closed_before_opened (old : handle) (effs : list Effect) : bool :=
  match effs with
  | [] => false
  | EventSourceClose h :: rest =>
      if Nat.eqb h old then true else closed_before_opened old rest
  | EventSourceNew _ _ _ :: _ => false
  | _ :: rest => closed_before_opened old rest
  end.

(** A computation that keeps an invariant of the state and has only effects
    of a given kind. *)
Definition maintains {A : Type} (P : State -> Prop) (allowed : Effect -> bool)
    (m : M A) : Prop :=
  forall s, P s -> P (final (m s)) /\ forallb allowed (effects (m s)) = true.

(** Every effect but the post of an audio buffer to the player. *)
Definition not_audio_post (e : Effect) : bool :=
  match e with
  | PortPostMessage _ (Audio _) => false
  | _ => true
  end.


(** The white space and the line terminators of ECMAScript, each as the
    bytes of its UTF-8 encoding, in the order of the code points: U+0009 to
    U+000D, U+0020, U+00A0, U+1680, U+2000 to U+200A, U+2028, U+2029, U+202F,
    U+205F, U+3000 and U+FEFF. *)
Definition utf8 (bytes : list N) : string :=
  string_of_list_ascii (map ascii_of_N bytes).

Definition white_space : list string :=
  map utf8
    [[9]; [10]; [11]; [12]; [13]; [32]; [194; 160]; [225; 154; 128];
     [226; 128; 128]; [226; 128; 129]; [226; 128; 130]; [226; 128; 131];
     [226; 128; 132]; [226; 128; 133]; [226; 128; 134]; [226; 128; 135];
     [226; 128; 136]; [226; 128; 137]; [226; 128; 138]; [226; 128; 168];
     [226; 128; 169]; [226; 128; 175]; [226; 129; 159]; [227; 128; 128];
     [239; 187; 191]]%N.

(** A string of white space only, the empty one included. *)
Definition blank (s : string) : Prop :=
  exists characters,
    Forall (fun c => In c white_space) characters
    /\ s = String.concat EmptyString characters.

(** * Properties *)

(** ** Base64 round trip *)

Lemma list_ind3 {A : Type} (P : list A -> Prop) :
  P [] -> (forall a, P [a]) -> (forall a b, P [a; b]) ->
  (forall a b c l, P l -> P (a :: b :: c :: l)) ->
  forall l, P l.
Proof.
  intros H0 H1 H2 H3.
  fix IH 1. intros [|a [|b [|c l]]].
  - exact H0.
  - exact (H1 a).
  - exact (H2 a b).
  - exact (H3 a b c l (IH l)).
Qed.

Ltac div_mod_lia := zify; Z.to_euclidean_division_equations; lia.

Lemma sextet_char_table :
  forallb
    (fun i =>
       match Base64.sextet_of_char (Base64.char_of_sextet (N.of_nat i)) with
       | Some n => N.eqb n (N.of_nat i)
       | None => false
       end
       && negb (Ascii.eqb (Base64.char_of_sextet (N.of_nat i)) Base64.pad_char)
       && negb (Base64.is_ascii_whitespace (Base64.char_of_sextet (N.of_nat i))))
    (seq 0 64) = true.
Proof. vm_compute. reflexivity. Qed.

Lemma char_of_sextet_facts (n : N) :
  (n < 64)%N ->
  Base64.sextet_of_char (Base64.char_of_sextet n) = Some n
  /\ Ascii.eqb (Base64.char_of_sextet n) Base64.pad_char = false
  /\ Base64.is_ascii_whitespace (Base64.char_of_sextet n) = false.
Proof.
  intros Hn.
  pose proof (proj1 (forallb_forall _ _) sextet_char_table (N.to_nat n)) as H.
  cbv beta in H. rewrite N2Nat.id in H.
  assert (Hin : In (N.to_nat n) (seq 0 64)) by (apply in_seq; lia).
  specialize (H Hin).
  apply andb_prop in H as [H Hws]. apply andb_prop in H as [H Hpad].
  destruct (Base64.sextet_of_char (Base64.char_of_sextet n)) as [k|];
    [|discriminate].
  apply N.eqb_eq in H. subst k.
  repeat split; now apply negb_true_iff.
Qed.

Lemma code_lt (c : ascii) : (Base64.code c < 256)%N.
Proof. apply N_ascii_bounded. Qed.

Lemma padding_step a b c l : padding (a :: b :: c :: l) = padding l.
Proof.
  unfold padding.
  replace (List.length (a :: b :: c :: l)) with (List.length l + 1 * 3)%nat
    by (simpl; lia).
  now rewrite Nat.Div0.mod_add.
Qed.

Lemma encode_chars_split l :
  Base64.encode_chars l = map Base64.char_of_sextet (sextets l) ++ padding l.
Proof.
  induction l as [|a|a b|a b c l IH] using list_ind3; try reflexivity.
  rewrite padding_step. simpl. now rewrite IH.
Qed.

Lemma sextets_bounded l : Forall (fun n => (n < 64)%N) (sextets l).
Proof.
  induction l as [|a|a b|a b c l IH] using list_ind3; simpl.
  - constructor.
  - pose proof (code_lt a). repeat constructor; div_mod_lia.
  - pose proof (code_lt a). pose proof (code_lt b).
    repeat constructor; div_mod_lia.
  - pose proof (code_lt a). pose proof (code_lt b). pose proof (code_lt c).
    repeat (constructor; [div_mod_lia|]). exact IH.
Qed.

Lemma decode_sextets_sextets l : Base64.decode_sextets (sextets l) = l.
Proof.
  induction l as [|a|a b|a b c l IH] using list_ind3; simpl.
  - reflexivity.
  - pose proof (code_lt a).
    replace ((Base64.code a / 4 * 64 + Base64.code a mod 4 * 16) / 16)%N
      with (Base64.code a) by div_mod_lia.
    unfold Base64.code. now rewrite ascii_N_embedding.
  - pose proof (code_lt a). pose proof (code_lt b).
    set (n := (((Base64.code a / 4 * 64
                 + (Base64.code a mod 4 * 16 + Base64.code b / 16)) * 64
                + Base64.code b mod 16 * 4) / 4)%N).
    replace (n / 256)%N with (Base64.code a) by (subst n; div_mod_lia).
    replace (n mod 256)%N with (Base64.code b) by (subst n; div_mod_lia).
    unfold Base64.code. now rewrite !ascii_N_embedding.
  - pose proof (code_lt a). pose proof (code_lt b). pose proof (code_lt c).
    set (n := (((Base64.code a / 4 * 64
                 + (Base64.code a mod 4 * 16 + Base64.code b / 16)) * 64
                + (Base64.code b mod 16 * 4 + Base64.code c / 64)) * 64
               + Base64.code c mod 64)%N).
    replace (n / 65536)%N with (Base64.code a) by (subst n; div_mod_lia).
    replace (n / 256 mod 256)%N with (Base64.code b) by (subst n; div_mod_lia).
    replace (n mod 256)%N with (Base64.code c) by (subst n; div_mod_lia).
    unfold Base64.code. rewrite !ascii_N_embedding. now rewrite IH.
Qed.

Lemma length_sextets_mod4 l :
  (N.of_nat (List.length (sextets l)) mod 4 =? 1)%N = false.
Proof.
  induction l as [|a|a b|a b c l IH] using list_ind3; try reflexivity.
  apply N.eqb_neq in IH. apply N.eqb_neq.
  cbn [sextets List.length]. div_mod_lia.
Qed.

Lemma length_encode_chars_mod4 l :
  (N.of_nat (List.length (Base64.encode_chars l)) mod 4 =? 0)%N = true.
Proof.
  induction l as [|a|a b|a b c l IH] using list_ind3; try reflexivity.
  apply N.eqb_eq in IH. apply N.eqb_eq.
  cbn [Base64.encode_chars List.length]. div_mod_lia.
Qed.

Lemma padding_cases l :
  padding l = []
  \/ padding l = [Base64.pad_char]
  \/ padding l = [Base64.pad_char; Base64.pad_char].
Proof.
  unfold padding. destruct (List.length l mod 3)%nat as [|[|[|k]]]; auto.
Qed.

Lemma filter_encode_chars l :
  filter (fun c => negb (Base64.is_ascii_whitespace c)) (Base64.encode_chars l)
  = Base64.encode_chars l.
Proof.
  rewrite encode_chars_split.
  apply forallb_filter_id. rewrite forallb_app. apply andb_true_intro. split.
  - apply forallb_forall. intros c Hc. apply in_map_iff in Hc as (n & <- & Hn).
    pose proof (sextets_bounded l) as Hb. rewrite Forall_forall in Hb.
    destruct (char_of_sextet_facts n (Hb n Hn)) as (_ & _ & ->). reflexivity.
  - destruct (padding_cases l) as [-> | [-> | ->]]; reflexivity.
Qed.

Lemma strip_padding_chars (ns : list N) (p : list ascii) :
  Forall (fun n => (n < 64)%N) ns ->
  p = [] \/ p = [Base64.pad_char] \/ p = [Base64.pad_char; Base64.pad_char] ->
  (2 <= List.length ns)%nat \/ p = [] ->
  Base64.strip_padding (map Base64.char_of_sextet ns ++ p)
  = map Base64.char_of_sextet ns.
Proof.
  intros Hb Hp Hlen. unfold Base64.strip_padding. rewrite rev_app_distr.
  assert (Hlast : forall c r,
             rev (map Base64.char_of_sextet ns) = c :: r ->
             Ascii.eqb c Base64.pad_char = false).
  { intros c r Hr.
    assert (Hin : In c (map Base64.char_of_sextet ns)).
    { apply in_rev. rewrite Hr. now left. }
    apply in_map_iff in Hin as (n & <- & Hn). rewrite Forall_forall in Hb.
    now destruct (char_of_sextet_facts n (Hb n Hn)) as (_ & -> & _). }
  destruct Hp as [-> | [-> | ->]]; cbn [rev app].
  - rewrite app_nil_r.
    destruct (rev (map Base64.char_of_sextet ns)) as [|c1 [|c2 r]] eqn:Hr;
      try reflexivity.
    now rewrite (Hlast c1 (c2 :: r) eq_refl).
  - destruct Hlen as [Hlen | Hnil]; [|discriminate].
    destruct (rev (map Base64.char_of_sextet ns)) as [|c1 r] eqn:Hr.
    + apply (f_equal (@List.length _)) in Hr.
      rewrite length_rev, length_map in Hr. simpl in Hr. lia.
    + cbn. rewrite (Hlast c1 r eq_refl).
      rewrite <- (rev_involutive (map Base64.char_of_sextet ns)), Hr.
      reflexivity.
  - destruct Hlen as [Hlen | Hnil]; [|discriminate].
    cbn. rewrite rev_involutive. reflexivity.
Qed.

Lemma sextets_of_chars_map ns :
  Forall (fun n => (n < 64)%N) ns ->
  Base64.sextets_of_chars (map Base64.char_of_sextet ns) = Some ns.
Proof.
  induction 1 as [|n ns Hn _ IH]; simpl; [reflexivity|].
  destruct (char_of_sextet_facts n Hn) as (-> & _). now rewrite IH.
Qed.

Lemma sextets_length_padding l :
  (2 <= List.length (sextets l))%nat \/ padding l = [].
Proof.
  destruct l as [|a [|b [|c l]]]; simpl; auto; left; lia.
Qed.

Lemma decode_encode_chars l :
  Base64.decode_chars (Base64.encode_chars l) = Some l.
Proof.
  unfold Base64.decode_chars.
  rewrite filter_encode_chars, length_encode_chars_mod4.
  rewrite encode_chars_split.
  rewrite (strip_padding_chars _ _ (sextets_bounded l) (padding_cases l)
             (sextets_length_padding l)).
  rewrite length_map, length_sextets_mod4.
  rewrite (sextets_of_chars_map _ (sextets_bounded l)).
  now rewrite decode_sextets_sextets.
Qed.

Lemma atob_btoa (s : string) : Base64.atob (Base64.btoa s) = Some s.
Proof.
  unfold Base64.atob, Base64.btoa. rewrite list_ascii_of_string_of_list_ascii.
  rewrite decode_encode_chars. now rewrite string_of_list_ascii_of_string.
Qed.

Lemma binary_of_bytes (l : list byte) (acc : string) :
  fold_left
    (fun binary b => (binary ++ String (ascii_of_byte b) EmptyString)%string)
    l acc
  = (acc ++ string_of_list_ascii (map ascii_of_byte l))%string.
Proof.
  revert acc. induction l as [|b l IH]; intros acc; simpl.
  - clear. induction acc; simpl; congruence.
  - rewrite IH. clear. induction acc; simpl; congruence.
Qed.

(** C4. For every byte sequence [b], decoding the base64 text of [b] gives
    [b] back: [base64ToArray (arrayBufferToBase64 b)] does not throw and its
    result is [b]. *)
Theorem base64_roundtrip (b : ArrayBuffer) :
  base64ToArray (arrayBufferToBase64 b) = Some b.
Proof.
  unfold base64ToArray, arrayBufferToBase64.
  rewrite atob_btoa, binary_of_bytes. cbn [String.append].
  rewrite list_ascii_of_string_of_list_ascii, map_map.
  rewrite <- (map_id b) at 2. f_equal. apply map_ext.
  intros x. apply byte_of_ascii_of_byte.
Qed.

Example base64_hello :
  arrayBufferToBase64 [x48; x65; x6c; x6c; x6f] = "SGVsbG8="
  /\ base64ToArray "SGVsbG8=" = Some [x48; x65; x6c; x6c; x6f]
  /\ base64ToArray "SGVs bG8" = Some [x48; x65; x6c; x6c; x6f]
  /\ base64ToArray "SGVsb" = None
  /\ base64ToArray "SG=sbG8=" = None.
Proof. repeat split; reflexivity. Qed.

(** ** Range of the PCM conversion *)

Lemma shiftl_lt_scaled (m : positive) (e k C : Z) :
  0 <= k -> 0 <= e + k -> 0 < C ->
  Z.pos m * 2 ^ (e + k) < C * 2 ^ k ->
  Z.shiftl (Z.pos m) e < C.
Proof.
  intros Hk Hek HC H.
  destruct (Z.le_gt_cases 0 e) as [He | He].
  - rewrite Z.shiftl_mul_pow2 by assumption.
    rewrite Z.pow_add_r in H by assumption.
    apply (Z.mul_lt_mono_pos_r (2 ^ k)); [apply Z.pow_pos_nonneg; lia|].
    rewrite <- Z.mul_assoc. exact H.
  - rewrite Z.shiftl_div_pow2 by lia.
    assert (Hp : 0 < 2 ^ (- e)) by (apply Z.pow_pos_nonneg; lia).
    assert (Hq : 0 < 2 ^ (e + k)) by (apply Z.pow_pos_nonneg; lia).
    replace (2 ^ k) with (2 ^ (e + k) * 2 ^ (- e)) in H
      by (rewrite <- Z.pow_add_r by lia; f_equal; lia).
    apply Z.div_lt_upper_bound; [assumption|].
    apply (Z.mul_lt_mono_pos_r (2 ^ (e + k))); [assumption|].
    replace (2 ^ (- e) * C * 2 ^ (e + k))
      with (C * (2 ^ (e + k) * 2 ^ (- e))) by ring.
    exact H.
Qed.

Lemma of_Z_max :
  Number.of_Z 32767 = S754_finite false 9006924376834048 (-38).
Proof. reflexivity. Qed.

Lemma of_Z_min :
  Number.of_Z (-32768) = S754_finite true 4503599627370496 (-37).
Proof. reflexivity. Qed.

Lemma lt_max_truncate s m e :
  Number.lt (S754_finite s m e) (Number.of_Z 32767) = true ->
  Number.truncate (S754_finite s m e) < 32767.
Proof.
  rewrite of_Z_max.
  unfold Number.lt, Number.compare, Number.scaled, Number.truncate.
  cbn [Number.mantissa Number.exponent].
  assert (Hsh : 0 <= Z.shiftl (Z.pos m) e) by (apply Z.shiftl_nonneg; lia).
  destruct s; [lia|].
  destruct (Z.compare_spec (Z.pos m * 2 ^ (e - Z.min e (-38)))
              (9006924376834048 * 2 ^ (-38 - Z.min e (-38)))) as [| H |];
    try discriminate.
  intros _.
  apply (shiftl_lt_scaled m e (- Z.min e (-38))); try lia.
  replace (e + - Z.min e (-38)) with (e - Z.min e (-38)) by lia.
  replace (- Z.min e (-38)) with (38 + (-38 - Z.min e (-38))) by lia.
  rewrite Z.pow_add_r by lia.
  change (2 ^ 38) with 274877906944. lia.
Qed.

Lemma lt_min_truncate s m e :
  Number.lt (Number.of_Z (-32768)) (S754_finite s m e) = true ->
  -32768 < Number.truncate (S754_finite s m e).
Proof.
  rewrite of_Z_min.
  unfold Number.lt, Number.compare, Number.scaled, Number.truncate.
  cbn [Number.mantissa Number.exponent].
  assert (Hsh : 0 <= Z.shiftl (Z.pos m) e) by (apply Z.shiftl_nonneg; lia).
  destruct s; [|lia].
  destruct (Z.compare_spec
              (Z.neg 4503599627370496 * 2 ^ (-37 - Z.min (-37) e))
              (Z.neg m * 2 ^ (e - Z.min (-37) e))) as [| H |];
    try discriminate.
  intros _.
  enough (Z.shiftl (Z.pos m) e < 32768) by lia.
  apply (shiftl_lt_scaled m e (- Z.min (-37) e)); try lia.
  replace (e + - Z.min (-37) e) with (e - Z.min (-37) e) by lia.
  replace (- Z.min (-37) e) with (37 + (-37 - Z.min (-37) e)) by lia.
  rewrite Z.pow_add_r by lia.
  change (2 ^ 37) with 137438953472. lia.
Qed.

Lemma clamp_truncate (y : Number.number) :
  -32768 <= Number.truncate (clamp y) <= 32767.
Proof.
  destruct y as [s | s | | s m e].
  - destruct s; vm_compute; split; discriminate.
  - destruct s; vm_compute; split; discriminate.
  - vm_compute; split; discriminate.
  - unfold clamp, Number.Math_min, Number.Math_max.
    change (Number.is_nan (Number.of_Z 32767)) with false.
    change (Number.is_nan (Number.of_Z (-32768))) with false.
    change (Number.lt (Number.of_Z 32767) (S754_infinity false)) with true.
    change (Number.gt (Number.of_Z (-32768)) (S754_infinity true)) with true.
    cbn [Number.is_nan orb Number.is_neg_zero andb].
    destruct (Number.lt (S754_finite s m e) (Number.of_Z 32767)) eqn:Hhi.
    + cbn [Number.is_nan orb Number.is_pos_zero andb]. unfold Number.gt.
      destruct (Number.lt (Number.of_Z (-32768)) (S754_finite s m e)) eqn:Hlo.
      * apply lt_max_truncate in Hhi. apply lt_min_truncate in Hlo. lia.
      * vm_compute; split; discriminate.
    + vm_compute; split; discriminate.
Qed.

Lemma ToInt16_no_wrap (x : Number.number) :
  -32768 <= Number.truncate x <= 32767 -> Number.ToInt16 x = Number.truncate x.
Proof.
  intros H. unfold Number.ToInt16.
  destruct (Z.geb_spec (Number.truncate x mod 65536) 32768);
    Z.to_euclidean_division_equations; lia.
Qed.

(** C5. For every array of samples, whatever their magnitude (infinities and
    NaN included), every sample of the result lies in [-32768, 32767]: the
    product of the sample by 32767 is clamped to that range, so the value
    stored is its integral part and the narrowing to 16 bits wraps nothing. *)
Theorem convertFloat32ToPCM_range (inputData : list Number.number) :
  Forall2
    (fun sample v =>
       let clamped :=
         Number.Math_max (Number.of_Z (-32768))
           (Number.Math_min (Number.of_Z 32767)
              (Number.mul sample (Number.of_Z 32767))) in
       v = Number.truncate clamped /\ -32768 <= v <= 32767)
    inputData (convertFloat32ToPCM inputData).
Proof.
  unfold convertFloat32ToPCM.
  induction inputData as [|sample l IH]; cbn [map]; constructor; [|exact IH].
  pose proof (clamp_truncate (Number.mul sample (Number.of_Z 32767))) as H.
  unfold clamp in H.
  rewrite (ToInt16_no_wrap _ H). split; [reflexivity | exact H].
Qed.

Example convertFloat32ToPCM_samples :
  convertFloat32ToPCM
    [S754_finite false 4503599627370496 (-53);
     S754_finite false 4503599627370496 10;
     S754_nan; S754_infinity true; S754_zero true;
     Number.of_Z 1; Number.of_Z (-1); Number.of_Z (-2)]
  = [16383; 32767; 0; -32768; 0; 32767; -32767; -32768]
  /\ Number.ToInt16 (Number.of_Z 40000) = -25536
  /\ Uint8Array_of [1; -1; 256] = [x01; x00; xff; xff; x00; x01].
Proof. repeat split; vm_compute; reflexivity. Qed.

(** ** The voice activity gate *)

Lemma audioRecorderHandler_silent pcmData s :
  Number.gt (rms pcmData) (Number.of_Z 100) = false ->
  audioRecorderHandler pcmData s = mkOutcome (Normal tt) s [].
Proof.
  intros H. unfold audioRecorderHandler. rewrite H. reflexivity.
Qed.

Lemma capture_silent frames s :
  Forall (fun pcmData => Number.gt (rms pcmData) (Number.of_Z 100) = false)
    frames ->
  capture frames s = mkOutcome (Normal tt) s [].
Proof.
  induction 1 as [|pcmData frames Hsilent _ IH]; [reflexivity|].
  cbn [capture]. unfold bind.
  rewrite (audioRecorderHandler_silent _ _ Hsilent). rewrite IH. reflexivity.
Qed.

Lemma Forall_firstn {A : Type} (P : A -> Prop) (n : nat) (l : list A) :
  Forall P l -> Forall P (firstn n l).
Proof.
  intros H. revert n. induction H as [|x l Hx _ IH]; intros [|n]; cbn; auto.
Qed.

(** C6. A frame whose root mean square, as the handler computes it, does not
    exceed 100 is not appended to the pending buffer and arms no timer: the
    handler leaves the state as it is and has no effect.  So over any
    sequence of such frames the state stays the same, and from an empty
    buffer the buffer has length 0 after every frame. *)
Theorem silent_frames_never_buffered (frames : list Int16Array) (s : State) :
  Forall (fun pcmData => Number.gt (rms pcmData) (Number.of_Z 100) = false)
    frames ->
  capture frames s = mkOutcome (Normal tt) s []
  /\ (audioBufferRef s = [] ->
      forall n,
        List.length (audioBufferRef (exec (capture (firstn n frames)) s))
        = 0%nat).
Proof.
  intros H. split; [now apply capture_silent|].
  intros Hempty n. unfold exec.
  rewrite capture_silent by now apply Forall_firstn.
  cbn [final]. now rewrite Hempty.
Qed.

Lemma silent_frames_never_buffered_witness :
  Forall (fun pcmData => Number.gt (rms pcmData) (Number.of_Z 100) = false)
    [[0; 0; 0]; [100; -100; 100]; []]
  /\ capture [[0; 0; 0]; [100; -100; 100]; []] Session.voice_live
     = mkOutcome (Normal tt) Session.voice_live [].
Proof.
  split; [repeat constructor|].
  apply (silent_frames_never_buffered
           [[0; 0; 0]; [100; -100; 100]; []] Session.voice_live).
  repeat constructor.
Defined.

Example loud_frame_is_buffered :
  audioBufferRef
    (exec (audioRecorderHandler [101; -101; 101]) Session.voice_live)
  = [[x65; x00; x9b; xff; x65; x00]]
  /\ effects (audioRecorderHandler [101; -101; 101] Session.voice_live)
     = [SetInterval 7%nat 200].
Proof. split; reflexivity. Qed.

(** ** The flush of the pending audio *)

Lemma audio_sends_app l1 l2 :
  audio_sends (l1 ++ l2) = audio_sends l1 ++ audio_sends l2.
Proof.
  induction l1 as [|e l1 IH]; [reflexivity|].
  destruct e; cbn; try exact IH.
  destruct (String.eqb (mime_type body) "audio/pcm"); cbn; now rewrite IH.
Qed.

Lemma audio_sends_bind {A B : Type} (m : M A) (k : A -> M B) s :
  audio_sends (effects (bind m k s))
  = audio_sends (effects (m s))
    ++ match result (m s) with
       | Normal a => audio_sends (effects (k a (final (m s))))
       | Thrown _ => []
       end.
Proof.
  unfold bind. destruct (m s) as [[a | error] s1 e1]; cbn.
  - destruct (k a s1) as [r2 s2 e2]; cbn. apply audio_sends_app.
  - now rewrite app_nil_r.
Qed.

Lemma audio_sends_bind_quiet {A B : Type} (m : M A) (k : A -> M B) s a s1 e1 :
  m s = mkOutcome (Normal a) s1 e1 ->
  audio_sends e1 = [] ->
  audio_sends (effects (bind m k s)) = audio_sends (effects (k a s1)).
Proof.
  intros Hm He. rewrite audio_sends_bind, Hm. cbn. now rewrite He.
Qed.

Lemma quiet_bind {A B : Type} (m : M A) (k : A -> M B) :
  quiet m -> (forall a, quiet (k a)) -> quiet (bind m k).
Proof.
  intros Hm Hk s. rewrite audio_sends_bind, Hm.
  destruct (result (m s)); [apply Hk | reflexivity].
Qed.

Lemma quiet_try_catch {A : Type} (m : M A) (h : string -> M A) :
  quiet m -> (forall e, quiet (h e)) -> quiet (try_catch m h).
Proof.
  intros Hm Hh s. unfold try_catch.
  specialize (Hm s). destruct (m s) as [[a | error] s1 e1]; cbn in *; [exact Hm|].
  specialize (Hh error s1). destruct (h error s1) as [r2 s2 e2]; cbn in *.
  now rewrite audio_sends_app, Hm, Hh.
Qed.

Lemma quiet_ret {A : Type} (a : A) : quiet (ret a).
Proof. intros s. reflexivity. Qed.

Lemma quiet_throw {A : Type} (e : string) : quiet (@throw A e).
Proof. intros s. reflexivity. Qed.

Lemma quiet_get : quiet get.
Proof. intros s. reflexivity. Qed.

Lemma quiet_modify f : quiet (modify f).
Proof. intros s. reflexivity. Qed.

Lemma quiet_fresh : quiet fresh.
Proof. intros s. reflexivity. Qed.

Lemma quiet_emit e :
  match e with FetchSend _ _ _ _ => False | _ => True end -> quiet (emit e).
Proof. intros He s. destruct e; try reflexivity. destruct He. Qed.

Create HintDb quiet.

#[local] Hint Resolve quiet_ret quiet_throw quiet_get quiet_modify quiet_fresh
  : quiet.

Ltac quiet_step :=
  match goal with
  | |- forall _, _ => intro
  | |- quiet (bind _ _) => apply quiet_bind
  | |- quiet (try_catch _ _) => apply quiet_try_catch
  | |- quiet (emit _) => apply quiet_emit; exact I
  | |- quiet (match ?x with _ => _ end) => destruct x
  | |- quiet (when ?b _) => destruct b; unfold when
  | |- quiet _ => solve [auto with quiet]
  end.

Ltac quiet_all := repeat quiet_step.

Lemma connectToServer_quiet r audioMode health now :
  quiet (connectToServer r audioMode health now).
Proof.
  unfold connectToServer, close_eventSource, fetch_health, append_message,
    setMessages, setIsConnected, console_log, console_error.
  quiet_all.
Qed.

#[local] Hint Resolve connectToServer_quiet : quiet.

Lemma sendBufferedAudio_sends r outcome s :
  audio_sends (effects (sendBufferedAudio r outcome s))
  = flushed r s (isRecording s).
Proof.
  unfold flushed, sendBufferedAudio, bind, get.
  cbn -[List.concat audio_frame].
  destruct (audioBufferRef s) as [|chunk chunks] eqn:Hbuf; [reflexivity|].
  cbn -[List.concat audio_frame].
  destruct (r_isConnected r); [|reflexivity].
  destruct (List.concat (chunk :: chunks)); [reflexivity|].
  destruct outcome as [[[] st] | reason]; reflexivity.
Qed.

Lemma flush_then_quiet {B : Type} r outcome (k : unit -> M B) s :
  (forall a, quiet (k a)) ->
  audio_sends
    (effects
       (bind (when (0 <? List.length (audioBufferRef s))%nat
                (sendBufferedAudio r outcome)) k s))
  = flushed r s (isRecording s).
Proof.
  intros Hk. rewrite audio_sends_bind.
  rewrite <- (app_nil_r (flushed r s (isRecording s))). f_equal.
  - destruct (audioBufferRef s) as [|chunk chunks] eqn:Hb.
    + unfold flushed. now rewrite Hb.
    + cbn [List.length Nat.ltb Nat.leb when]. apply sendBufferedAudio_sends.
  - destruct (result _); [apply Hk | reflexivity].
Qed.

Lemma stopVoiceConversation_sends r outcome health t1 t2 s :
  audio_sends (effects (stopVoiceConversation r outcome health t1 t2 s))
  = flushed r s false.
Proof.
  unfold stopVoiceConversation.
  do 4 (erewrite audio_sends_bind_quiet; [|reflexivity|reflexivity]).
  cbn [bufferTimerRef set_isVoiceEnabled set_isRecording].
  destruct (bufferTimerRef s) as [timer|];
    do 2 (erewrite audio_sends_bind_quiet; [|reflexivity|reflexivity]);
    (rewrite flush_then_quiet;
     [reflexivity
     | unfold close_eventSource, append_message, setMessages; quiet_all]).
Qed.

(** C1, as the code has it.  A flush sends one audio frame, the pending chunks
    joined, exactly when the buffer is not empty and the flushing function saw
    the page connected; it looks neither at the recording flag nor at the mode
    of the session.  This holds of the timer flush [sendBufferedAudio] and of
    [stopVoiceConversation], whose only audio frame is that of its flush, sent
    when the recording flag is already false. *)
Theorem flush_sends_whenever_connected r outcome health t1 t2 s :
  audio_sends (effects (sendBufferedAudio r outcome s))
  = flushed r s (isRecording s)
  /\ audio_sends (effects (stopVoiceConversation r outcome health t1 t2 s))
     = flushed r s false.
Proof.
  split; [apply sendBufferedAudio_sends | apply stopVoiceConversation_sends].
Qed.

(** C1, as stated, does not hold: stopping while speech is pending sends an
    audio frame at a moment when the recording flag is false. *)
Lemma stop_flush_after_recording_cleared :
  ~ (forall r outcome health t1 t2 s,
        audio_only_while_recording
          (effects (stopVoiceConversation r outcome health t1 t2 s))).
Proof.
  intros H.
  specialize (H (render_of Session.tab Session.speaking)
                Session.healthy Session.healthy 8 9 Session.speaking).
  destruct (H (audio_frame [xe8; x03; x18; xfc; xf4; x01]) false (Some AudioMode))
    as [Hrec _].
  - vm_compute. left. reflexivity.
  - discriminate.
Qed.

Example timer_flush_in_text_mode :
  audio_sends
    (effects
       (sendBufferedAudio (mkRender EmptyString true false false Session.tab)
          Session.healthy
          (set_audioBufferRef [[x01; x02; x03]] Session.connected)))
  = [(mkFrame "audio/pcm" "AQID", false, Some TextMode)].
Proof. reflexivity. Qed.

(** ** Starting the voice conversation *)

(** C7, as stated, does not hold: a second start on live pipelines in audio
    mode replaces the player node. *)
Lemma start_twice_replaces_pipelines : ~ start_is_idempotent.
Proof.
  intros H.
  destruct (H (render_of Session.tab Session.voice_live) Session.healthy 6 7
              Session.voice_live eq_refl eq_refl eq_refl) as (Hplayer & _).
  vm_compute in Hplayer. discriminate.
Qed.

(** C7, as the code has it.  When both worklets start, a request to start the
    voice conversation creates a new playback and a new capture pipeline under
    handles not used before and stores them in the references, whatever these
    held; it sets the voice and recording flags, and it makes one attempt to
    reconnect in audio mode whatever the mode of the session is: a stream is
    opened exactly when the liveness check succeeds. *)
Theorem start_always_builds_and_reconnects r health t1 t2 s :
  let o := startVoiceConversation r None None health t1 t2 s in
  let h := next_handle s in
  result o = Normal tt
  /\ audioPlayerContextRef (final o) = Some (mkAudioContext h 24000)
  /\ audioPlayerNodeRef (final o) = Some (mkPlayerNode (1 + h)%nat [] None true)
  /\ audioRecorderContextRef (final o)
     = Some (mkAudioContext (2 + h)%nat 16000)
  /\ micStreamRef (final o) = Some (3 + h)%nat
  /\ audioRecorderNodeRef (final o) = Some (4 + h)%nat
  /\ isVoiceEnabled (final o) = true
  /\ isRecording (final o) = true
  /\ worklets_created (effects o) = 2%nat
  /\ reconnects (effects o) = (if health_ok health then 1 else 0)%nat
  /\ eventSourceRef (final o)
     = (if health_ok health
        then Some (mkEventSource (5 + h)%nat true false)
        else option_map
               (fun es => mkEventSource (es_handle es) (es_is_audio es) true)
               (eventSourceRef s)).
Proof.
  destruct s as [msgs iv ic ive ir im it es cm pn pc rn rc mic buf timer nh].
  destruct es as [es|], health as [[[] st] | reason];
    lazy -[notice]; repeat split; reflexivity.
Qed.

(** ** Stopping the voice conversation *)

Lemma never_started_connected : never_started Session.connected.
Proof. repeat split. Qed.

(** C8, as stated, does not hold: stopping a page that is connected and never
    started voice changes the transcript. *)
Lemma stop_never_started_changes_state : ~ stop_is_inert.
Proof.
  intros H.
  destruct (H (render_of Session.tab Session.connected)
              Session.healthy Session.healthy 3 4 Session.connected
              never_started_connected) as [_ Hsame].
  apply (f_equal (fun s => List.length (messages s))) in Hsame.
  vm_compute in Hsame. discriminate.
Qed.

(** C8, as the code has it.  Stopping when nothing was started does not throw
    and leaves the recording, voice, muted and typing flags, the input, the
    open message, the pending buffer, the timer and the (absent) pipelines as
    they are, and sends no audio; but it closes the stream, tries to reconnect
    in text mode and appends the notice that voice stopped, after the notice
    of a failed connection if the liveness check fails, in which case the page
    is marked disconnected. *)
Theorem stop_never_started r outcome health t1 t2 s :
  never_started s ->
  let o := stopVoiceConversation r outcome health t1 t2 s in
  result o = Normal tt
  /\ isRecording (final o) = isRecording s
  /\ isVoiceEnabled (final o) = isVoiceEnabled s
  /\ isMuted (final o) = isMuted s
  /\ isTyping (final o) = isTyping s
  /\ inputValue (final o) = inputValue s
  /\ currentMessageIdRef (final o) = currentMessageIdRef s
  /\ audioBufferRef (final o) = audioBufferRef s
  /\ bufferTimerRef (final o) = bufferTimerRef s
  /\ never_started (final o)
  /\ messages (final o) =
       messages s
       ++ (if health_ok health then []
           else [notice t1
                   ("❌ Failed to connect to server. " ++ unreachable)%string])
       ++ [notice t2 "🔴 Voice conversation stopped - Switched to text mode"]
  /\ eventSourceRef (final o) =
       (if health_ok health
        then Some (mkEventSource (next_handle s) false false)
        else option_map
               (fun es => mkEventSource (es_handle es) (es_is_audio es) true)
               (eventSourceRef s))
  /\ isConnected (final o) = (if health_ok health then isConnected s else false)
  /\ reconnects (effects o) = (if health_ok health then 1 else 0)%nat
  /\ audio_sends (effects o) = [].
Proof.
  intros (H1 & H2 & H3 & H4 & H5 & H6 & H7 & H8 & H9).
  destruct s as [msgs iv ic ive ir im it es cm pn pc rn rc mic buf timer nh].
  cbn in H1, H2, H3, H4, H5, H6, H7, H8, H9. subst.
  destruct health as [[[] st] | reason], es as [es|];
    lazy -[app notice unreachable String.append];
    repeat split; try reflexivity;
    rewrite <- app_assoc; reflexivity.
Qed.

Lemma stop_never_started_witness :
  never_started Session.connected
  /\ messages
       (final (stopVoiceConversation (render_of Session.tab Session.connected)
                 Session.healthy Session.down 3 4 Session.connected))
     = messages Session.connected
       ++ [notice 3 ("❌ Failed to connect to server. " ++ unreachable)%string;
           notice 4 "🔴 Voice conversation stopped - Switched to text mode"].
Proof.
  split; [exact never_started_connected|].
  apply (stop_never_started (render_of Session.tab Session.connected)
           Session.healthy Session.down 3 4 Session.connected
           never_started_connected).
Defined.

(** ** Text messages and the failure of a connection *)

Lemma connectToServer_unreachable r audioMode health now s :
  health_ok health = false ->
  let o := connectToServer r audioMode health now s in
  result o = Normal tt
  /\ messages (final o)
     = messages s
       ++ [notice now ("❌ Failed to connect to server. " ++ unreachable)%string]
  /\ isConnected (final o) = false
  /\ reconnects (effects o) = 0%nat.
Proof.
  intros Hhealth.
  destruct s as [msgs iv ic ive ir im it es cm pn pc rn rc mic buf timer nh].
  destruct health as [[[] st] | reason]; try discriminate Hhealth;
    destruct es as [es|];
    lazy -[app notice unreachable String.append]; repeat split.
Qed.

Lemma sendMessage_response_keeps outcome now s :
  exists rest,
    result (sendMessage_response outcome now s) = Normal tt
    /\ messages (final (sendMessage_response outcome now s))
       = messages s ++ rest.
Proof.
  destruct s as [msgs iv ic ive ir im it es cm pn pc rn rc mic buf timer nh].
  destruct outcome as [[[] st] | reason].
  - exists []. lazy -[app notice]. now rewrite app_nil_r.
  - eexists. lazy -[app notice]. split; reflexivity.
  - eexists. lazy -[app notice]. split; reflexivity.
Qed.

(** C9. When the page is connected and the input is not blank, [sendMessage]
    appends the user message to the transcript and only then issues its
    request, before any response is looked at; whatever the response is,
    [sendMessage] returns with the message still in the transcript, followed
    at most by a notice; and a later connection whose liveness check fails
    only appends its notice to the transcript, so the message is still
    there. *)
Theorem optimistic_message_survives_failed_connect
    (r : Render) (now : Z) (s : State) :
  r_isConnected r = true ->
  String.eqb (trim (r_inputValue r)) EmptyString = false ->
  let userMessage :=
    mkMessage (Date_toString now) (JStr (r_inputValue r)) user now None in
  let o := sendMessage_request r now s in
  (result o = Normal true
   /\ messages (final o) = messages s ++ [userMessage]
   /\ effects o = [FetchSend (userId r) (text_frame (r_inputValue r))
                     (isRecording s) (session_mode s)])
  /\ (forall outcome t,
         let sent := sendMessage r now outcome t s in
         exists rest,
           result sent = Normal tt
           /\ final sent = exec (sendMessage_response outcome t) (final o)
           /\ messages (final sent) = messages s ++ [userMessage] ++ rest
           /\ (forall r' audioMode health t',
                  health_ok health = false ->
                  let o' := connectToServer r' audioMode health t' (final sent) in
                  result o' = Normal tt
                  /\ messages (final o')
                     = messages s ++ [userMessage] ++ rest
                       ++ [notice t'
                             ("❌ Failed to connect to server. "
                              ++ unreachable)%string]))
  /\ (forall r' audioMode health t s',
         health_ok health = false ->
         let o' := connectToServer r' audioMode health t s' in
         result o' = Normal tt
         /\ messages (final o')
            = messages s'
              ++ [notice t
                    ("❌ Failed to connect to server. " ++ unreachable)%string]
         /\ (In userMessage (messages s') ->
             In userMessage (messages (final o')))).
Proof.
  intros Hconnected Hinput userMessage o.
  assert (Ho : o = mkOutcome (Normal true)
                     (set_messages (messages s ++ [userMessage]) s)
                     [FetchSend (userId r) (text_frame (r_inputValue r))
                        (isRecording s) (session_mode s)]).
  { subst o. unfold sendMessage_request. rewrite Hinput, Hconnected.
    destruct s; reflexivity. }
  split; [|split].
  - rewrite Ho. repeat split.
  - intros outcome t sent.
    destruct (sendMessage_response_keeps outcome t (final o))
      as (rest & Hres & Hmsgs).
    assert (Hsent : result sent = Normal tt
                    /\ final sent = exec (sendMessage_response outcome t) (final o)).
    { subst sent. unfold sendMessage, bind, exec.
      change (sendMessage_request r now s) with o.
      rewrite Ho in Hres |- *. cbn [when final] in Hres |- *.
      destruct (sendMessage_response outcome t _) as [res sf ef].
      cbn [result final] in *. now split. }
    destruct Hsent as [Hsent Hfinal].
    assert (Hall : messages (final sent) = messages s ++ [userMessage] ++ rest).
    { rewrite Hfinal. unfold exec. rewrite Hmsgs, Ho. cbn [final].
      destruct s; cbn. now rewrite <- app_assoc. }
    exists rest. split; [exact Hsent|]. split; [exact Hfinal|].
    split; [exact Hall|].
    intros r' audioMode health t' Hhealth.
    destruct (connectToServer_unreachable r' audioMode health t' (final sent)
                Hhealth) as (Hres' & Hmsgs' & _).
    cbv zeta. rewrite Hres', Hmsgs', Hall, <- !app_assoc. split; reflexivity.
  - intros r' audioMode health t s' Hhealth.
    destruct (connectToServer_unreachable r' audioMode health t s' Hhealth)
      as (Hres & Hmsgs & _).
    cbv zeta. rewrite Hres, Hmsgs. repeat split.
    intros Hin. apply in_or_app. now left.
Qed.

Lemma optimistic_message_survives_failed_connect_witness :
  r_isConnected (mkRender "hi" true false false Session.tab) = true
  /\ String.eqb (trim (r_inputValue (mkRender "hi" true false false Session.tab)))
       EmptyString = false
  /\ messages
       (final (sendMessage_request (mkRender "hi" true false false Session.tab)
                 3 Session.connected))
     = messages Session.connected ++ [mkMessage "3" (JStr "hi") user 3 None]
  /\ In (mkMessage "3" (JStr "hi") user 3 None)
       (messages
          (final
             (connectToServer (render_of Session.tab Session.connected) false
                Session.down 9
                (final
                   (sendMessage (mkRender "hi" true false false Session.tab)
                      3 Session.healthy 4 Session.connected))))).
Proof.
  split; [reflexivity|]. split; [reflexivity|].
  destruct (optimistic_message_survives_failed_connect
              (mkRender "hi" true false false Session.tab) 3 Session.connected
              eq_refl eq_refl) as (Hrequest & Hsent & _).
  split; [apply Hrequest|].
  destruct (Hsent Session.healthy 4) as (rest & _ & _ & _ & Hconnect).
  destruct (Hconnect (render_of Session.tab Session.connected) false
              Session.down 9 eq_refl) as (_ & Hmessages).
  rewrite Hmessages. apply in_or_app. right. left. reflexivity.
Defined.

Example blank_input_is_not_sent :
  sendMessage (mkRender "  " true false false Session.tab) 3 Session.healthy 4
    Session.connected
  = mkOutcome (Normal tt) Session.connected [].
Proof. reflexivity. Qed.

(** ** Inbound events *)

Section InboundFacts.

Variable JSON_parse : string -> option json.
Variable ToString_other : json -> string.

Lemma onmessage_returns r event_data random_id now s :
  result (onmessage JSON_parse ToString_other r event_data random_id now s)
  = Normal tt.
Proof.
  unfold onmessage, handler, bind at 1, try_catch.
  match goal with |- context [match ?body s with _ => _ end] =>
    destruct (body s) as [[[|update updates] | error] s1 e1] end; reflexivity.
Qed.

Lemma onmessage_turn_complete r event_data random_id now s :
  JSON_parse event_data = Some (wire TurnComplete) ->
  onmessage JSON_parse ToString_other r event_data random_id now s
  = mkOutcome (Normal tt)
      (set_currentMessageIdRef None (set_isTyping false s))
      [ConsoleLog "Received data:"; ConsoleLog "Turn completed"].
Proof.
  intros H. unfold onmessage, handler. rewrite H. reflexivity.
Qed.

Lemma onmessage_interrupted r event_data random_id now s :
  JSON_parse event_data = Some (wire Interrupted) ->
  onmessage JSON_parse ToString_other r event_data random_id now s
  = match audioPlayerNodeRef s with
    | Some node =>
        mkOutcome (Normal tt)
          (set_audioPlayerNodeRef (Some (interrupt node)) (set_isTyping false s))
          [ConsoleLog "Received data:";
           PortPostMessage (node_handle node) EndOfAudio;
           ConsoleLog "Turn interrupted"]
    | None =>
        mkOutcome (Normal tt) (set_isTyping false s)
          [ConsoleLog "Received data:"; ConsoleLog "Turn interrupted"]
    end.
Proof.
  intros H. unfold onmessage, handler. rewrite H.
  destruct s as [msgs iv ic ive ir im it es cm pn pc rn rc mic buf timer nh].
  destruct pn; reflexivity.
Qed.


(** What the body of the handler does with a turn completion and with a
    text part. *)
Lemma handler_turn_complete r event_data random_id now s :
  JSON_parse event_data = Some (wire TurnComplete) ->
  handler JSON_parse ToString_other r event_data random_id now s
  = mkOutcome (Normal [])
      (set_currentMessageIdRef None (set_isTyping false s))
      [ConsoleLog "Received data:"; ConsoleLog "Turn completed"].
Proof.
  intros H. unfold handler. rewrite H. reflexivity.
Qed.

Lemma handler_text_delta r event_data random_id now s c text :
  JSON_parse event_data = Some (wire (TextDelta (String c text))) ->
  handler JSON_parse ToString_other r event_data random_id now s
  = match currentMessageIdRef s with
    | None =>
        mkOutcome
          (Normal [AppendMessage
                     (mkMessage random_id (JStr (String c text)) ai now None)])
          (set_currentMessageIdRef (Some random_id) (set_isTyping true s))
          [ConsoleLog "Received data:"]
    | Some _ =>
        mkOutcome (Normal [AppendText (JStr (String c text))])
          (set_isTyping true s) [ConsoleLog "Received data:"]
    end.
Proof.
  intros H. unfold handler. rewrite H.
  destruct s as [msgs iv ic ive ir im it es cm pn pc rn rc mic buf timer nh].
  destruct cm; reflexivity.
Qed.

Lemma map_append_text_fresh current text (msgs : list Message) :
  (forall m, In m msgs -> id m <> current) ->
  map (append_text ToString_other current text) msgs = msgs.
Proof.
  intros Hfresh. rewrite <- (map_id msgs) at 2. apply map_ext_in.
  intros m Hm. unfold append_text.
  destruct (String.eqb_spec (id m) current) as [Heq | Hne]; [|reflexivity].
  now destruct (Hfresh m Hm).
Qed.

(** C2, as the code has it.  From a state with no open message, whose
    transcript has no message of the identifier drawn, the events TextDelta
    A, TextDelta B, TurnComplete always end with the pointer cleared, the
    typing flag off and exactly one message of the assistant appended, but
    what the message holds depends on when React runs the updates.  When the
    update of the second delta is run before the turn completion is handled,
    the message holds AB.  When the turn completion is handled first, that
    update finds the pointer cleared and appends to no message: the message
    holds A, and B is lost. *)
Theorem turn_complete_before_render_loses_delta
    (r : Render) (a b t id1 id2 id3 : string) (n1 n2 n3 : Z) (s : State) :
  currentMessageIdRef s = None ->
  (forall m, In m (messages s) -> id m <> id1) ->
  JSON_parse a = Some (wire (TextDelta "A")) ->
  JSON_parse b = Some (wire (TextDelta "B")) ->
  JSON_parse t = Some (wire TurnComplete) ->
  let run batches := onmessage_batches JSON_parse ToString_other r batches s in
  let reply text := mkMessage id1 (JStr text) ai n1 None in
  let closed o :=
    result o = Normal tt
    /\ currentMessageIdRef (final o) = None /\ isTyping (final o) = false in
  (closed (run [[(a, id1, n1)]; [(b, id2, n2)]; [(t, id3, n3)]])
   /\ messages (final (run [[(a, id1, n1)]; [(b, id2, n2)]; [(t, id3, n3)]]))
      = messages s ++ [reply "AB"])
  /\ (closed (run [[(a, id1, n1); (b, id2, n2)]; [(t, id3, n3)]])
      /\ messages (final (run [[(a, id1, n1); (b, id2, n2)]; [(t, id3, n3)]]))
         = messages s ++ [reply "AB"])
  /\ (closed (run [[(a, id1, n1)]; [(b, id2, n2); (t, id3, n3)]])
      /\ messages (final (run [[(a, id1, n1)]; [(b, id2, n2); (t, id3, n3)]]))
         = messages s ++ [reply "A"])
  /\ (closed (run [[(a, id1, n1); (b, id2, n2); (t, id3, n3)]])
      /\ messages (final (run [[(a, id1, n1); (b, id2, n2); (t, id3, n3)]]))
         = messages s ++ [reply "A"]).
Proof.
  intros Hnone Hfresh Ha Hb Ht run reply closed. subst run reply closed.
  destruct s as [msgs iv ic ive ir im it es cm pn pc rn rc mic buf timer nh].
  cbn [currentMessageIdRef messages] in Hnone, Hfresh. subst cm.
  pose proof (map_append_text_fresh id1 (JStr "B") msgs Hfresh) as Hold.
  repeat first
    [ rewrite (handler_text_delta _ _ _ _ _ _ _ Ha)
    | rewrite (handler_text_delta _ _ _ _ _ _ _ Hb)
    | rewrite (handler_turn_complete _ _ _ _ _ Ht)
    | progress unfold onmessage_batch, bind
    | progress cbn -[append_text handler] ].
  rewrite ?map_app, ?Hold, ?map_id. cbn [map].
  unfold append_text. cbn [id content]. rewrite String.eqb_refl.
  repeat split.
Qed.

(** C3, as the code has it.  An interruption clears the typing flag and posts
    the end of audio to the player, if there is one, whose queue is then
    empty and whose buffer being played is halted; the pointer to the message
    being built and the transcript are left as they were. *)
Theorem interrupted_keeps_current_message
    (r : Render) (event_data random_id : string) (now : Z) (s : State) :
  JSON_parse event_data = Some (wire Interrupted) ->
  let o := onmessage JSON_parse ToString_other r event_data random_id now s in
  result o = Normal tt
  /\ isTyping (final o) = false
  /\ audioPlayerNodeRef (final o) = option_map interrupt (audioPlayerNodeRef s)
  /\ (forall node, audioPlayerNodeRef (final o) = Some node ->
                   queue node = [] /\ playing node = None)
  /\ currentMessageIdRef (final o) = currentMessageIdRef s
  /\ messages (final o) = messages s.
Proof.
  intros H. cbv zeta. rewrite (onmessage_interrupted _ _ _ _ _ H).
  destruct s as [msgs iv ic ive ir im it es cm pn pc rn rc mic buf timer nh].
  cbn [audioPlayerNodeRef]. destruct pn as [node|]; cbn.
  - split; [reflexivity|]. split; [reflexivity|]. split; [reflexivity|].
    split; [|split; reflexivity].
    intros node' Hnode. injection Hnode as <-. split; reflexivity.
  - split; [reflexivity|]. split; [reflexivity|]. split; [reflexivity|].
    split; [|split; reflexivity].
    intros node' Hnode. discriminate Hnode.
Qed.

(** The handler, once the four properties of the decoded value are read and
    the value is neither a turn completion, nor an interruption, nor text
    with data. *)
Lemma onmessage_unfold r event_data random_id now s v
    turn_complete interrupted mime payload :
  JSON_parse event_data = Some v ->
  member v "turn_complete" = Some turn_complete ->
  member v "interrupted" = Some interrupted ->
  member v "mime_type" = Some mime ->
  member v "data" = Some payload ->
  strictly_true turn_complete = false ->
  strictly_true interrupted = false ->
  strictly_string mime "text/plain" && truthy payload = false ->
  (strictly_string mime "audio/pcm" && truthy payload
   && is_some (audioPlayerNodeRef s) && negb (r_isMuted r) = true ->
   forall base64, payload = Some base64 ->
                  base64ToArray (ToString ToString_other base64) = None) ->
  exists logs,
    onmessage JSON_parse ToString_other r event_data random_id now s
    = mkOutcome (Normal tt) s (ConsoleLog "Received data:" :: logs)
    /\ forallb is_console logs = true.
Proof.
  intros Hparse Htc Hint Hmime Hdata Htc' Hint' Htext Haudio.
  unfold onmessage, handler, read. rewrite Hparse, Htc, Hint, Hmime, Hdata.
  cbv [bind ret try_catch console_log console_error emit get when app].
  rewrite Htc', Hint', Htext.
  destruct (strictly_string mime "audio/pcm" && truthy payload
            && is_some (audioPlayerNodeRef s) && negb (r_isMuted r)) eqn:Hcond.
  - destruct payload as [base64|].
    + rewrite (Haudio eq_refl base64 eq_refl).
      cbv [throw andb]. eexists. split; reflexivity.
    + rewrite !andb_true_iff in Hcond. now destruct Hcond as [[[_ Hcond] _] _].
  - cbv [andb]. eexists. split; reflexivity.
Qed.

Lemma audio_is_not_text mime :
  strictly_string mime "audio/pcm" = true ->
  strictly_string mime "text/plain" = false.
Proof.
  destruct mime as [[| | | m | |]|]; try discriminate. cbn.
  intros H. apply String.eqb_eq in H. now subst m.
Qed.

Lemma malformed_dropped r event_data random_id now s :
  malformed (ToString ToString_other) (JSON_parse event_data) ->
  exists logs,
    onmessage JSON_parse ToString_other r event_data random_id now s
    = mkOutcome (Normal tt) s logs
    /\ logs <> [] /\ forallb is_console logs = true.
Proof.
  unfold malformed. destruct (JSON_parse event_data) as [v|] eqn:Hparse.
  - intros [Hunknown | [Hempty | Haudio]].
    + destruct v as [| flag | x | str | items | fields];
        try (unfold onmessage, handler; rewrite Hparse; eexists;
             split; [reflexivity | split; [discriminate | reflexivity]]).
      unfold recognized in Hunknown. cbn [member] in Hunknown.
      rewrite !orb_false_iff in Hunknown.
      destruct Hunknown as [[[Htc Hint] Htext] Haudio].
      destruct (onmessage_unfold r event_data random_id now s (JObj fields)
                  _ _ _ (lookup "data" fields)
                  Hparse eq_refl eq_refl eq_refl eq_refl Htc Hint)
        as (logs & Heq & Hlogs).
      * now rewrite Htext.
      * rewrite Haudio. discriminate.
      * eexists. split; [exact Heq | split; [discriminate | exact Hlogs]].
    + destruct Hempty as (tc & int & mime & payload & Htc & Hint & Hmime & Hdata
                          & Htc' & Hint' & Hfalsy).
      destruct (onmessage_unfold r event_data random_id now s v
                  tc int mime payload
                  Hparse Htc Hint Hmime Hdata Htc' Hint')
        as (logs & Heq & Hlogs).
      * rewrite Hfalsy. apply andb_false_r.
      * rewrite Hfalsy, andb_false_r. discriminate.
      * eexists. split; [exact Heq | split; [discriminate | exact Hlogs]].
    + destruct Haudio as (tc & int & mime & payload & Htc & Hint & Hmime & Hdata
                          & Htc' & Hint' & Haudio & Hbad).
      destruct (onmessage_unfold r event_data random_id now s v
                  tc int mime payload
                  Hparse Htc Hint Hmime Hdata Htc' Hint')
        as (logs & Heq & Hlogs).
      * now rewrite (audio_is_not_text mime Haudio).
      * intros _. exact Hbad.
      * eexists. split; [exact Heq | split; [discriminate | exact Hlogs]].
  - intros _. unfold onmessage, handler. rewrite Hparse. eexists.
    split; [reflexivity | split; [discriminate | reflexivity]].
Qed.

(** C10, as amended.  An event whose text is not JSON, or whose value bears
    the mark of none of the four kinds of event, or has no data, or is audio
    that does not decode, makes
    the handler return without an exception, after writing to the console
    and nothing else: the state is the one before, stream and connection flag
    included.  The events that follow are handled as if the event had not
    arrived: same completion, same final state, same effects apart from the
    console. *)
Theorem malformed_event_is_dropped
    (r : Render) (event_data random_id : string) (now : Z) (s : State) :
  malformed (ToString ToString_other) (JSON_parse event_data) ->
  (exists logs,
      onmessage JSON_parse ToString_other r event_data random_id now s
      = mkOutcome (Normal tt) s logs
      /\ logs <> [] /\ forallb is_console logs = true)
  /\ (forall rest,
         let with_it :=
           onmessages JSON_parse ToString_other r
             ((event_data, random_id, now) :: rest) s in
         let without_it := onmessages JSON_parse ToString_other r rest s in
         result with_it = result without_it
         /\ final with_it = final without_it
         /\ filter (fun e => negb (is_console e)) (effects with_it)
            = filter (fun e => negb (is_console e)) (effects without_it)).
Proof.
  intros H.
  destruct (malformed_dropped r event_data random_id now s H)
    as (logs & Heq & Hne & Hlogs).
  split; [now exists logs|].
  intros rest. cbn [onmessages]. unfold bind. rewrite Heq.
  destruct (onmessages JSON_parse ToString_other r rest s) as [res s' effs].
  cbn [result final effects]. repeat split.
  rewrite filter_app.
  replace (filter (fun e => negb (is_console e)) logs) with (@nil Effect);
    [reflexivity|].
  clear -Hlogs. induction logs as [|e logs IH]; [reflexivity|].
  cbn in *. apply andb_true_iff in Hlogs as [He Hlogs].
  rewrite He. cbn. now apply IH.
Qed.

End InboundFacts.

Lemma turn_complete_before_render_loses_delta_witness :
  currentMessageIdRef Session.connected = None
  /\ Session.parse (Session.text_delta_text "A") = Some (wire (TextDelta "A"))
  /\ Session.parse (Session.text_delta_text "B") = Some (wire (TextDelta "B"))
  /\ Session.parse Session.turn_complete_text = Some (wire TurnComplete)
  /\ messages
       (final
          (onmessage_batches Session.parse Session.to_string
             (render_of Session.tab Session.connected)
             [[(Session.text_delta_text "A", "r1", 3)];
              [(Session.text_delta_text "B", "r2", 4);
               (Session.turn_complete_text, "r3", 5)]]
             Session.connected))
     = messages Session.connected ++ [mkMessage "r1" (JStr "A") ai 3 None].
Proof.
  split; [reflexivity|]. split; [reflexivity|].
  split; [reflexivity|]. split; [reflexivity|].
  assert (Hfresh : forall m, In m (messages Session.connected) -> id m <> "r1").
  { intros m Hm. vm_compute in Hm.
    destruct Hm as [<- | [<- | []]]; discriminate. }
  destruct (turn_complete_before_render_loses_delta
              Session.parse Session.to_string
              (render_of Session.tab Session.connected)
              (Session.text_delta_text "A") (Session.text_delta_text "B")
              Session.turn_complete_text "r1" "r2" "r3" 3 4 5 Session.connected
              eq_refl Hfresh eq_refl eq_refl eq_refl)
    as (_ & _ & (_ & Hlost) & _).
  exact Hlost.
Defined.

Lemma interrupted_keeps_current_message_witness :
  Session.parse Session.interrupted_text = Some (wire Interrupted)
  /\ currentMessageIdRef Session.answering = Some "m1"
  /\ currentMessageIdRef
       (final (onmessage Session.parse Session.to_string
                 (render_of Session.tab Session.voice_live)
                 Session.interrupted_text "k7" 8 Session.answering))
     = Some "m1".
Proof.
  split; [reflexivity|]. split; [reflexivity|].
  apply (interrupted_keeps_current_message Session.parse Session.to_string
           (render_of Session.tab Session.voice_live)
           Session.interrupted_text "k7" 8 Session.answering eq_refl).
Defined.

(** C3, as stated, does not hold: after an interruption the message that was
    being built is still the current one. *)
Lemma interrupted_does_not_close_message :
  ~ interruption_closes_message Session.parse Session.to_string.
Proof.
  intros H.
  destruct (H (render_of Session.tab Session.voice_live)
              Session.interrupted_text "k7" 8 Session.answering eq_refl)
    as (_ & _ & Hpointer).
  vm_compute in Hpointer. discriminate.
Qed.

Example delta_after_interruption_joins_old_message :
  map content
    (messages
       (final
          (onmessages Session.parse Session.to_string
             (render_of Session.tab Session.voice_live)
             [(Session.interrupted_text, "k7", 8);
              (Session.text_delta_text "B", "k8", 9)]
             Session.answering)))
  = map content (messages Session.voice_live) ++ [JStr "HelloB"]
  /\ option_map queue (audioPlayerNodeRef Session.answering)
     = Some [[x48; x65; x6c; x6c; x6f]].
Proof. split; vm_compute; reflexivity. Qed.

Lemma malformed_event_is_dropped_witness :
  malformed (ToString Session.to_string) (Session.parse "not json")
  /\ malformed (ToString Session.to_string)
       (Session.parse (Session.audio_chunk_text "!!!"))
  /\ malformed (ToString Session.to_string)
       (Session.parse Session.text_without_data_text)
  /\ final (onmessages Session.parse Session.to_string
              (render_of Session.tab Session.voice_live)
              [("not json", "k1", 6);
               (Session.text_delta_text "Hello", "m1", 7)]
              Session.voice_live)
     = final (onmessages Session.parse Session.to_string
                (render_of Session.tab Session.voice_live)
                [(Session.text_delta_text "Hello", "m1", 7)]
                Session.voice_live).
Proof.
  split; [exact I|]. split; [|split].
  - right. right.
    exists None, None, (Some (JStr "audio/pcm")), (Some (JStr "!!!")).
    repeat split. intros base64 Hb. inversion Hb. reflexivity.
  - right. left. exists None, None, (Some (JStr "text/plain")), (Some JNull).
    repeat split.
  - apply (malformed_event_is_dropped Session.parse Session.to_string
             (render_of Session.tab Session.voice_live)
             "not json" "k1" 6 Session.voice_live I).
Defined.

(** C10, as stated, does not hold: a text part whose data is a number is the
    wire form of no event, and the handler appends it to the transcript. *)
Lemma text_part_with_a_number_is_appended :
  ~ unrecognized_is_dropped Session.parse Session.to_string.
Proof.
  intros H.
  destruct (H (render_of Session.tab Session.connected)
              Session.text_number_text "k9" 6 Session.connected)
    as (_ & Hstate & _).
  - intros e He. vm_compute in He. destruct e; discriminate He.
  - apply (f_equal (fun s => List.length (messages s))) in Hstate.
    vm_compute in Hstate. discriminate Hstate.
Qed.

(** * Further properties of the page *)

(** ** The codec on the way out *)

(** The text of an audio frame decodes to the bytes it was made from. *)
Lemma decode_audio_frame (buffer : ArrayBuffer) :
  base64ToArray (data (audio_frame buffer)) = Some buffer.
Proof.
  unfold audio_frame, base64ToArray, arrayBufferToBase64. cbn [data].
  rewrite atob_btoa, binary_of_bytes. cbn [String.append].
  rewrite list_ascii_of_string_of_list_ascii, map_map.
  rewrite <- (map_id buffer) at 2. f_equal. apply map_ext.
  intros x. apply byte_of_ascii_of_byte.
Qed.

(** X1. [arrayBufferToBase64] is injective: two byte sequences with the same
    base64 text are the same sequence, so no two audio buffers are sent as the
    same text. *)
Theorem arrayBufferToBase64_injective (a b : ArrayBuffer) :
  arrayBufferToBase64 a = arrayBufferToBase64 b -> a = b.
Proof.
  intros H.
  pose proof (decode_audio_frame a) as Ha.
  pose proof (decode_audio_frame b) as Hb.
  unfold audio_frame in Ha, Hb. cbn [data] in Ha, Hb.
  rewrite H in Ha. congruence.
Qed.

Lemma arrayBufferToBase64_injective_witness :
  arrayBufferToBase64 [x01; x02] = arrayBufferToBase64 [x01; x02]
  /\ [x01; x02] = [x01; x02].
Proof.
  split; [reflexivity|].
  apply (arrayBufferToBase64_injective [x01; x02] [x01; x02]). reflexivity.
Defined.

(** A sample takes two bytes, whatever its value. *)
Lemma bytes_of_int16_length (v : Z) : List.length (bytes_of_int16 v) = 2%nat.
Proof.
  unfold bytes_of_int16.
  assert (Hlo : (Z.to_N ((v mod 65536) mod 256) < 256)%N)
    by (zify; Z.to_euclidean_division_equations; lia).
  assert (Hhi : (Z.to_N ((v mod 65536) / 256) < 256)%N)
    by (zify; Z.to_euclidean_division_equations; lia).
  destruct (Byte.of_N (Z.to_N ((v mod 65536) mod 256))) as [lo|] eqn:Elo.
  - destruct (Byte.of_N (Z.to_N ((v mod 65536) / 256))) as [hi|] eqn:Ehi.
    + reflexivity.
    + apply Byte.of_N_None_iff in Ehi. lia.
  - apply Byte.of_N_None_iff in Elo. lia.
Qed.

(** X2. The bytes of a frame of samples, [new Uint8Array(pcmData.buffer)], are
    twice as many as the samples, whatever the samples are. *)
Theorem Uint8Array_of_length (pcmData : Int16Array) :
  List.length (Uint8Array_of pcmData) = (2 * List.length pcmData)%nat.
Proof.
  unfold Uint8Array_of. induction pcmData as [|v l IH]; [reflexivity|].
  cbn [flat_map List.length]. rewrite length_app, bytes_of_int16_length, IH. lia.
Qed.

(** ** A capture: the recorder handler on a sequence of frames *)

(** One frame through the handler. *)
Lemma audioRecorderHandler_outcome pcmData s :
  audioRecorderHandler pcmData s
  = if loud pcmData then
      match bufferTimerRef s with
      | Some _ =>
          mkOutcome (Normal tt)
            (set_audioBufferRef (audioBufferRef s ++ [Uint8Array_of pcmData]) s)
            []
      | None =>
          mkOutcome (Normal tt)
            (set_bufferTimerRef (Some (next_handle s))
               (set_next_handle (S (next_handle s))
                  (set_audioBufferRef
                     (audioBufferRef s ++ [Uint8Array_of pcmData]) s)))
            [SetInterval (next_handle s) 200]
      end
    else mkOutcome (Normal tt) s [].
Proof.
  unfold audioRecorderHandler, loud.
  destruct (Number.gt (rms pcmData) (Number.of_Z 100)); [|reflexivity].
  destruct s as [msgs iv ic ive ir im it es cm pn pc rn rc mic buf timer nh].
  destruct timer; reflexivity.
Qed.

(** The buffer after a capture. *)
Lemma capture_buffer (frames : list Int16Array) (s : State) :
  audioBufferRef (final (capture frames s))
  = audioBufferRef s ++ map Uint8Array_of (filter loud frames).
Proof.
  revert s. induction frames as [|pcmData frames IH]; intros s.
  - cbn. now rewrite app_nil_r.
  - cbn [capture filter]. unfold bind. rewrite audioRecorderHandler_outcome.
    destruct (loud pcmData); [destruct (bufferTimerRef s) as [timer|]|];
      match goal with |- context [capture frames ?S] =>
        pose proof (IH S) as Hb;
        destruct (capture frames S) as [res sf ef] end;
      cbn [result final effects] in *;
      destruct s as [msgs iv ic ive ir im it es cm pn pc rn rc mic buf timer' nh];
      cbn -[Uint8Array_of loud] in Hb |- *;
      rewrite Hb, <- ?app_assoc; reflexivity.
Qed.

(** X3. A capture appends to the buffer the bytes of the frames that pass the
    gate, in the order of their arrival, after what the buffer held; it
    changes neither the transcript nor the stream and sends nothing. *)
Theorem capture_keeps_order (frames : list Int16Array) (s : State) :
  result (capture frames s) = Normal tt
  /\ audioBufferRef (final (capture frames s))
     = audioBufferRef s ++ map Uint8Array_of (filter loud frames)
  /\ messages (final (capture frames s)) = messages s
  /\ eventSourceRef (final (capture frames s)) = eventSourceRef s
  /\ sent (effects (capture frames s)) = [].
Proof.
  revert s. induction frames as [|pcmData frames IH]; intros s.
  - cbn. rewrite app_nil_r. repeat split.
  - cbn [capture filter]. unfold bind. rewrite audioRecorderHandler_outcome.
    destruct (loud pcmData); [destruct (bufferTimerRef s) as [timer|]|];
      match goal with |- context [capture frames ?S] =>
        destruct (IH S) as (Hr & Hb & Hm & He & Hs);
        destruct (capture frames S) as [res sf ef] end;
      cbn [result final effects] in *;
      destruct s as [msgs iv ic ive ir im it es cm pn pc rn rc mic buf timer' nh];
      cbn -[Uint8Array_of loud] in Hb, Hm, He |- *;
      rewrite Hb, Hm, He, <- ?app_assoc; repeat split; assumption.
Qed.

(** X4. A capture arms at most one flush timer: none when a timer is already
    held, which it keeps; exactly one when none is held and some frame passes
    the gate; none when every frame is silent. *)
Theorem capture_arms_one_timer (frames : list Int16Array) (s : State) :
  let o := capture frames s in
  match bufferTimerRef s with
  | Some timer =>
      timers_armed (effects o) = 0%nat /\ bufferTimerRef (final o) = Some timer
  | None =>
      if existsb loud frames
      then timers_armed (effects o) = 1%nat
           /\ exists timer, bufferTimerRef (final o) = Some timer
                            /\ (next_handle s <= timer)%nat
      else timers_armed (effects o) = 0%nat /\ bufferTimerRef (final o) = None
  end.
Proof.
  cbv zeta.
  assert (Hsome : forall frames s timer,
             bufferTimerRef s = Some timer ->
             timers_armed (effects (capture frames s)) = 0%nat
             /\ bufferTimerRef (final (capture frames s)) = Some timer).
  { clear. induction frames as [|pcmData frames IH]; intros s timer Htimer.
    - cbn. auto.
    - cbn [capture]. unfold bind. rewrite audioRecorderHandler_outcome.
      destruct (loud pcmData).
      + rewrite Htimer.
        match goal with |- context [capture frames ?S] =>
          destruct (IH S timer) as (Ha & Hb);
          [destruct s; exact Htimer|];
          destruct (capture frames S) as [res sf ef] end.
        cbn [result final effects] in *. auto.
      + destruct (IH s timer Htimer) as (Ha & Hb).
        destruct (capture frames s) as [res sf ef].
        cbn [result final effects] in *. auto. }
  destruct (bufferTimerRef s) as [timer|] eqn:Htimer; [now apply Hsome|].
  revert s Htimer. induction frames as [|pcmData frames IH]; intros s Htimer.
  - cbn. auto.
  - cbn [capture existsb]. unfold bind. rewrite audioRecorderHandler_outcome.
    destruct (loud pcmData).
    + rewrite Htimer. cbn [orb].
      match goal with |- context [capture frames ?S] =>
        destruct (Hsome frames S (next_handle s)) as (Ha & Hb);
        [destruct s; reflexivity|];
        destruct (capture frames S) as [res sf ef] end.
      cbn [result final effects] in *. split.
      * unfold timers_armed in *. cbn. now rewrite Ha.
      * exists (next_handle s). split; [exact Hb | lia].
    + cbn [orb]. specialize (IH s Htimer).
      destruct (capture frames s) as [res sf ef].
      cbn [result final effects] in *. exact IH.
Qed.

(** ** The flush, whatever the state *)

(** What a flush returns and leaves. *)
Lemma sendBufferedAudio_outcome (r : Render) (outcome : FetchResult) (s : State) :
  let o := sendBufferedAudio r outcome s in
  result o = Normal tt
  /\ final o = match audioBufferRef s with
               | [] => s
               | _ :: _ => set_audioBufferRef [] s
               end
  /\ (requests (effects o) <= 1)%nat.
Proof.
  cbv zeta. unfold sendBufferedAudio, bind, get.
  destruct (audioBufferRef s) as [|chunk chunks] eqn:Hbuf.
  - cbn. repeat split; auto.
  - cbn -[List.concat audio_frame].
    destruct (r_isConnected r); cbn -[List.concat audio_frame].
    + destruct (List.concat (chunk :: chunks));
        cbn -[audio_frame];
        [|destruct outcome as [[[] st] | reason]; cbn -[audio_frame]];
        repeat split; try (destruct s; reflexivity); unfold requests; cbn; lia.
    + repeat split; try (destruct s; reflexivity). unfold requests; cbn; lia.
Qed.

(** X5. A flush never throws and always leaves the buffer empty, whether the
    page is connected or not and whether the request succeeds, is refused or
    fails: what was buffered is not kept for a later attempt.  It changes
    nothing else of the state and makes at most one request. *)
Theorem flush_always_clears (r : Render) (outcome : FetchResult) (s : State) :
  let o := sendBufferedAudio r outcome s in
  result o = Normal tt
  /\ audioBufferRef (final o) = []
  /\ final o = set_audioBufferRef [] s
  /\ (requests (effects o) <= 1)%nat.
Proof.
  cbv zeta.
  destruct (sendBufferedAudio_outcome r outcome s) as (Hres & Hfin & Hreq).
  cbv zeta in Hres, Hfin, Hreq. rewrite Hfin.
  destruct s as [msgs iv ic ive ir im it es cm pn pc rn rc mic buf timer nh].
  cbn [audioBufferRef] in *.
  destruct buf; repeat split; assumption.
Qed.

(** X6. What a flush sends after a capture that began with an empty buffer
    decodes, by [base64ToArray], to the bytes of the frames that passed the
    gate, concatenated in the order of their arrival; its type is
    [audio/pcm]. *)
Theorem flushed_audio_decodes
    (frames : list Int16Array) (r : Render) (outcome : FetchResult) (s : State) :
  audioBufferRef s = [] ->
  let o := sendBufferedAudio r outcome (exec (capture frames) s) in
  forall frame recording mode,
    In (frame, recording, mode) (audio_sends (effects o)) ->
    mime_type frame = "audio/pcm"
    /\ base64ToArray (data frame)
       = Some (List.concat (map Uint8Array_of (filter loud frames))).
Proof.
  intros Hempty o frame recording mode Hin. subst o.
  rewrite sendBufferedAudio_sends in Hin. unfold flushed in Hin.
  pose proof (capture_buffer frames s) as Hbuf.
  unfold exec in Hin. rewrite Hbuf, Hempty in Hin. cbn [app] in Hin.
  match type of Hin with In _ (if ?c then _ else _) => destruct c end;
    [|destruct Hin].
  destruct Hin as [Heq | []]. injection Heq as <- _ _.
  split; [reflexivity | apply decode_audio_frame].
Qed.

Lemma flushed_audio_decodes_witness :
  audioBufferRef Session.voice_live = []
  /\ In (audio_frame [xe8; x03; x18; xfc; xf4; x01], true, Some AudioMode)
       (audio_sends
          (effects
             (sendBufferedAudio (render_of Session.tab Session.voice_live)
                Session.healthy
                (exec (capture [[0; 0]; [1000; -1000; 500]]) Session.voice_live))))
  /\ base64ToArray (data (audio_frame [xe8; x03; x18; xfc; xf4; x01]))
     = Some (List.concat
               (map Uint8Array_of (filter loud [[0; 0]; [1000; -1000; 500]]))).
Proof.
  split; [reflexivity|]. split; [vm_compute; left; reflexivity|].
  apply (flushed_audio_decodes [[0; 0]; [1000; -1000; 500]]
           (render_of Session.tab Session.voice_live) Session.healthy
           Session.voice_live eq_refl
           (audio_frame [xe8; x03; x18; xfc; xf4; x01]) true (Some AudioMode)).
  vm_compute. left. reflexivity.
Defined.

(** ** Stopping, whatever the state and whatever arrives meanwhile *)

Ltac find_in :=
  solve [ left; reflexivity
        | right; find_in
        | apply in_or_app; left; find_in
        | apply in_or_app; right; find_in ].

Ltac released :=
  repeat split; intros;
  try discriminate;
  try (match goal with H : Some _ = Some _ |- _ => injection H as <- end;
       find_in).

(** What a capture may change: the buffer, the timer and the counter of
    handles; nothing of it when no frame passes the gate. *)
Lemma capture_shape (frames : list Int16Array) (s : State) :
  exists buffer timer next effs,
    capture frames s
    = mkOutcome (Normal tt)
        (set_bufferTimerRef timer
           (set_next_handle next (set_audioBufferRef buffer s)))
        effs
    /\ (Forall (fun pcmData => loud pcmData = false) frames ->
        buffer = audioBufferRef s /\ timer = bufferTimerRef s
        /\ next = next_handle s).
Proof.
  revert s. induction frames as [|pcmData frames IH]; intros s.
  - exists (audioBufferRef s), (bufferTimerRef s), (next_handle s), [].
    split; [destruct s; reflexivity | auto].
  - cbn [capture]. unfold bind. rewrite audioRecorderHandler_outcome.
    destruct (loud pcmData) eqn:Hloud.
    + destruct (bufferTimerRef s) as [held|] eqn:Htimer;
        match goal with |- context [capture frames ?S] =>
          destruct (IH S) as (b & t & n & effs & E & _); rewrite E end;
        eexists b, t, n, _;
        (split; [destruct s; reflexivity|]);
        intros H; inversion H; congruence.
    + destruct (IH s) as (b & t & n & effs & E & Hs). rewrite E.
      exists b, t, n, effs. split; [reflexivity|].
      intros H. inversion H. auto.
Qed.

(** What a flush returns and leaves when frames arrive while its request is
    pending: they are wiped with the buffer, but a timer they arm stays. *)
Lemma sendBufferedAudio_async_outcome
    (frames : list Int16Array) (r : Render) (outcome : FetchResult) (s : State) :
  audioBufferRef s <> [] ->
  exists timer next effs,
    sendBufferedAudio_async frames r outcome s
    = mkOutcome (Normal tt)
        (set_bufferTimerRef timer
           (set_next_handle next (set_audioBufferRef [] s)))
        effs
    /\ (Forall (fun pcmData => loud pcmData = false) frames ->
        timer = bufferTimerRef s /\ next = next_handle s).
Proof.
  intros Hbuf.
  destruct s as [msgs iv ic ive ir im it es cm pn pc rn rc mic buf held nh].
  cbn [audioBufferRef] in Hbuf.
  destruct buf as [|chunk chunks]; [now destruct Hbuf|].
  unfold sendBufferedAudio_async, bind at 1, get.
  cbn [audioBufferRef List.length Nat.eqb].
  destruct (r_isConnected r && (0 <? List.length (List.concat (chunk :: chunks)))%nat).
  - unfold when, bind at 1, try_catch, bind at 1, fetch_send_async, bind at 1, get.
    unfold bind at 1. cbn [emit]. unfold bind at 1.
    match goal with |- context [capture frames ?S] =>
      destruct (capture_shape frames S) as (b & t & n & effs & E & Hs);
      rewrite E end.
    exists t, n.
    destruct outcome as [[[] st] | reason]; eexists;
      (split; [lazy -[audio_frame List.concat app]; reflexivity|]);
      intros H; destruct (Hs H) as (_ & -> & ->); split; reflexivity.
  - exists held, nh, []. split; [reflexivity | auto].
Qed.

Lemma sendBufferedAudio_async_none r outcome s :
  sendBufferedAudio_async [] r outcome s = sendBufferedAudio r outcome s.
Proof.
  destruct s as [msgs iv ic ive ir im it es cm pn pc rn rc mic buf timer nh].
  destruct buf as [|chunk chunks]; [reflexivity|].
  unfold sendBufferedAudio_async, sendBufferedAudio. cbv [bind get].
  cbn [audioBufferRef List.length Nat.eqb].
  match goal with |- context [when ?c ?m] => destruct c end; [|reflexivity].
  destruct outcome as [[[] st] | reason];
    lazy -[audio_frame List.concat]; reflexivity.
Qed.

(** With no frame arriving, the asynchronous stop is [stopVoiceConversation]. *)
Lemma stopVoiceConversation_async_none r outcome health t1 t2 s :
  stopVoiceConversation_async (mkArrivals [] [] [] []) r outcome health t1 t2 s
  = stopVoiceConversation r outcome health t1 t2 s.
Proof.
  destruct s as [msgs iv ic ive ir im it es cm pn pc rn rc mic buf timer nh].
  destruct buf as [|chunk chunks], timer, mic, pc, rc, es,
    health as [[[] st] | reason];
    unfold stopVoiceConversation_async, stopVoiceConversation;
    lazy -[notice unreachable sendBufferedAudio_async sendBufferedAudio];
    rewrite ?sendBufferedAudio_async_none; reflexivity.
Qed.

Ltac window E :=
  match type of E with
  | context [sendBufferedAudio_async ?f ?r ?outcome ?S] =>
      let H := fresh "Hflush" in
      let E1 := fresh "E1" in
      destruct (sendBufferedAudio_async_outcome f r outcome S)
        as (? & ? & ? & E1 & H); [discriminate|];
      rewrite E1 in E; clear E1;
      cbn [bufferTimerRef next_handle] in H
  | context [capture ?f ?S] =>
      let H := fresh "Hwindow" in
      let E1 := fresh "E1" in
      destruct (capture_shape f S) as (? & ? & ? & ? & E1 & H);
      rewrite E1 in E; clear E1;
      cbn -[loud] in H
  end;
  lazy -[notice unreachable sendBufferedAudio_async capture app] in E.

Lemma stopVoiceConversation_async_outcome
    (w : Arrivals) (r : Render) (outcome health : FetchResult) (t1 t2 : Z)
    (s : State) :
  let o := stopVoiceConversation_async w r outcome health t1 t2 s in
  result o = Normal tt
  /\ (isVoiceEnabled (final o) = false /\ isRecording (final o) = false
      /\ audioPlayerNodeRef (final o) = None
      /\ audioPlayerContextRef (final o) = None
      /\ audioRecorderNodeRef (final o) = None
      /\ audioRecorderContextRef (final o) = None
      /\ micStreamRef (final o) = None)
  /\ (no_voice w ->
      audioBufferRef (final o) = [] /\ bufferTimerRef (final o) = None)
  /\ isMuted (final o) = isMuted s
  /\ session_mode (final o) = (if health_ok health then Some TextMode else None)
  /\ (forall timer, bufferTimerRef s = Some timer ->
                    In (ClearInterval timer) (effects o))
  /\ (forall micStream, micStreamRef s = Some micStream ->
                        In (TracksStop micStream) (effects o))
  /\ (forall ctx, audioPlayerContextRef s = Some ctx ->
                  In (AudioContextClose (ctx_handle ctx)) (effects o))
  /\ (forall ctx, audioRecorderContextRef s = Some ctx ->
                  In (AudioContextClose (ctx_handle ctx)) (effects o))
  /\ (forall es, eventSourceRef s = Some es ->
                 In (EventSourceClose (es_handle es)) (effects o)).
Proof.
  intros o.
  assert (Hw : no_voice w ->
               Forall (fun pcmData => loud pcmData = false) (during_flush w)
               /\ Forall (fun pcmData => loud pcmData = false)
                    (during_player_close w)
               /\ Forall (fun pcmData => loud pcmData = false)
                    (during_recorder_close w)
               /\ Forall (fun pcmData => loud pcmData = false)
                    (during_reconnect w)).
  { unfold no_voice. rewrite !Forall_app. tauto. }
  destruct s as [msgs iv ic ive ir im it es cm pn pc rn rc mic buf timer nh].
  destruct buf as [|chunk chunks], timer, mic, pc, rc, es,
    health as [[[] st] | reason];
    remember o as o' eqn:E; subst o; unfold stopVoiceConversation_async in E;
    lazy -[notice unreachable sendBufferedAudio_async capture app] in E;
    repeat window E;
    subst o'; lazy -[notice unreachable In app no_voice loud];
    (split; [reflexivity|]); (split; [repeat split|]);
    (split;
     [ intros Hnv; destruct (Hw Hnv) as (F1 & F2 & F3 & F4);
       repeat match goal with
              | H : Forall _ ?f -> _, F : Forall _ ?f |- _ =>
                  destruct (H F); clear H
              end;
       repeat match goal with H : _ /\ _ |- _ => destruct H end;
       subst; split; reflexivity
     | released ]).
Qed.

(** X7. From every state, and whatever frames reach the handler of the
    recorder while it waits (for the request of the flush, for each audio
    context to close, for the liveness request of the reconnection),
    [stopVoiceConversation] returns without throwing, sets both flags to
    false and empties the four audio references and the microphone.  Every
    timer, microphone stream, audio context and event stream that was held is
    cleared, stopped or closed on the way.  The mute flag is kept, and a text
    session is open afterwards exactly when the server answers the liveness
    request.  When no frame that passes the gate arrives during these waits,
    no pipeline is left: the buffer is empty and no timer is held. *)
Theorem stop_releases_everything
    (w : Arrivals) (r : Render) (outcome health : FetchResult) (t1 t2 : Z)
    (s : State) :
  let o := stopVoiceConversation_async w r outcome health t1 t2 s in
  result o = Normal tt
  /\ (isVoiceEnabled (final o) = false /\ isRecording (final o) = false
      /\ audioPlayerNodeRef (final o) = None
      /\ audioPlayerContextRef (final o) = None
      /\ audioRecorderNodeRef (final o) = None
      /\ audioRecorderContextRef (final o) = None
      /\ micStreamRef (final o) = None)
  /\ (no_voice w -> never_started (final o))
  /\ isMuted (final o) = isMuted s
  /\ session_mode (final o) = (if health_ok health then Some TextMode else None)
  /\ (forall timer, bufferTimerRef s = Some timer ->
                    In (ClearInterval timer) (effects o))
  /\ (forall micStream, micStreamRef s = Some micStream ->
                        In (TracksStop micStream) (effects o))
  /\ (forall ctx, audioPlayerContextRef s = Some ctx ->
                  In (AudioContextClose (ctx_handle ctx)) (effects o))
  /\ (forall ctx, audioRecorderContextRef s = Some ctx ->
                  In (AudioContextClose (ctx_handle ctx)) (effects o))
  /\ (forall es, eventSourceRef s = Some es ->
                 In (EventSourceClose (es_handle es)) (effects o)).
Proof.
  intros o.
  destruct (stopVoiceConversation_async_outcome w r outcome health t1 t2 s)
    as (Hres & Hrefs & Hquiet & Hrest).
  fold o in Hres, Hrefs, Hquiet, Hrest.
  split; [exact Hres|]. split; [exact Hrefs|]. split; [|exact Hrest].
  intros Hw. destruct (Hquiet Hw) as [Hbuffer Htimer].
  unfold never_started. tauto.
Qed.

(** A frame that passes the gate and arrives while the request of the flush
    is pending is wiped with the buffer, but the timer it arms is still held
    when [stopVoiceConversation] has returned. *)
Example voice_during_the_flush_leaves_a_timer :
  let o :=
    stopVoiceConversation_async (mkArrivals [[1000; -1000; 500]] [] [] [])
      (render_of Session.tab Session.speaking) Session.healthy Session.healthy
      8 9 Session.speaking in
  audioBufferRef (final o) = []
  /\ bufferTimerRef Session.speaking <> bufferTimerRef (final o)
  /\ is_some (bufferTimerRef (final o)) = true
  /\ ~ never_started (final o).
Proof.
  vm_compute. repeat split; try discriminate.
  intros (_ & _ & _ & _ & _ & _ & _ & _ & H). discriminate H.
Qed.

(** ** Starting when a device or the server fails *)

(** X8. When the recorder cannot be started (no microphone, or its worklet
    fails), [startVoiceConversation] does not throw: it reports the failure in
    the transcript, makes no request and opens no stream, and leaves the
    flags, the stream and the recorder references as they were.  The player
    it had already built stays in its references. *)
Theorem start_without_microphone
    (r : Render) (error : string) (health : FetchResult) (t1 t2 : Z) (s : State) :
  let o := startVoiceConversation r None (Some error) health t1 t2 s in
  result o = Normal tt
  /\ isRecording (final o) = isRecording s
  /\ isVoiceEnabled (final o) = isVoiceEnabled s
  /\ isConnected (final o) = isConnected s
  /\ eventSourceRef (final o) = eventSourceRef s
  /\ micStreamRef (final o) = micStreamRef s
  /\ audioRecorderNodeRef (final o) = audioRecorderNodeRef s
  /\ messages (final o) = messages s ++ [start_failure_notice t2]
  /\ requests (effects o) = 0%nat
  /\ reconnects (effects o) = 0%nat
  /\ audioPlayerNodeRef (final o)
     = Some (mkPlayerNode (1 + next_handle s)%nat [] None true)
  /\ audioPlayerContextRef (final o)
     = Some (mkAudioContext (next_handle s) 24000).
Proof.
  destruct s as [msgs iv ic ive ir im it es cm pn pc rn rc mic buf timer nh].
  lazy -[app notice]. repeat split.
Qed.

(** X9. When the player cannot be started, [startVoiceConversation] changes
    nothing of the state but the transcript, to which it adds the failure
    notice, and the counter of handles, advanced by the audio context it
    tried to use: no worklet is created and no request is made. *)
Theorem start_without_player
    (r : Render) (error : string) (recorderFailure : option string)
    (health : FetchResult) (t1 t2 : Z) (s : State) :
  let o := startVoiceConversation r (Some error) recorderFailure health t1 t2 s in
  result o = Normal tt
  /\ final o
     = set_messages (messages s ++ [start_failure_notice t2])
         (set_next_handle (S (next_handle s)) s)
  /\ requests (effects o) = 0%nat
  /\ worklets_created (effects o) = 0%nat.
Proof.
  destruct s as [msgs iv ic ive ir im it es cm pn pc rn rc mic buf timer nh].
  lazy -[app notice]. repeat split.
Qed.

(** X10. When both devices start but the server does not answer the liveness
    request, [startVoiceConversation] still sets the recording and voice
    flags and keeps the microphone, although no session is open: the page
    shows the connection failure and then the notice that the voice
    conversation started. *)
Theorem start_with_server_down
    (r : Render) (health : FetchResult) (t1 t2 : Z) (s : State) :
  health_ok health = false ->
  let o := startVoiceConversation r None None health t1 t2 s in
  result o = Normal tt
  /\ isRecording (final o) = true
  /\ isVoiceEnabled (final o) = true
  /\ isConnected (final o) = false
  /\ session_mode (final o) = None
  /\ micStreamRef (final o) = Some (3 + next_handle s)%nat
  /\ messages (final o)
     = messages s
       ++ [notice t1 ("❌ Failed to connect to server. " ++ unreachable)%string;
           notice t2
             "🎤 Voice conversation started - Speak naturally, AI is listening..."].
Proof.
  intros Hhealth.
  destruct s as [msgs iv ic ive ir im it es cm pn pc rn rc mic buf timer nh].
  destruct health as [[[] st] | reason]; try discriminate Hhealth;
    destruct es as [es|]; lazy -[notice unreachable app String.append];
    rewrite <- ?app_assoc; repeat split.
Qed.

Lemma start_with_server_down_witness :
  health_ok Session.down = false
  /\ isRecording
       (final
          (startVoiceConversation (render_of Session.tab Session.connected)
             None None Session.down 3 4 Session.connected))
     = true
  /\ session_mode
       (final
          (startVoiceConversation (render_of Session.tab Session.connected)
             None None Session.down 3 4 Session.connected))
     = None.
Proof.
  split; [reflexivity|].
  destruct (start_with_server_down (render_of Session.tab Session.connected)
              Session.down 3 4 Session.connected eq_refl)
    as (_ & Hrecording & _ & _ & Hmode & _).
  split; [exact Hrecording | exact Hmode].
Defined.

(** ** Connecting *)

(** X11. When the server answers the liveness request, [connectToServer]
    opens exactly one stream, of the mode asked for, and holds it; the stream
    held before, if any, is closed before the new one is opened.  It makes
    one request, and changes neither the transcript nor the connected flag:
    that is left to the handlers of the stream. *)
Theorem connect_replaces_stream
    (r : Render) (audioMode : bool) (health : FetchResult) (now : Z) (s : State) :
  health_ok health = true ->
  let o := connectToServer r audioMode health now s in
  result o = Normal tt
  /\ eventSourceRef (final o)
     = Some (mkEventSource (next_handle s) audioMode false)
  /\ session_mode (final o) = Some (if audioMode then AudioMode else TextMode)
  /\ messages (final o) = messages s
  /\ isConnected (final o) = isConnected s
  /\ reconnects (effects o) = 1%nat
  /\ requests (effects o) = 1%nat
  /\ (forall old, eventSourceRef s = Some old ->
                  closed_before_opened (es_handle old) (effects o) = true).
Proof.
  intros Hhealth.
  destruct s as [msgs iv ic ive ir im it es cm pn pc rn rc mic buf timer nh].
  destruct health as [[[] st] | reason]; try discriminate Hhealth.
  destruct es as [es|], audioMode; lazy -[Nat.eqb]; repeat split;
    intros old Hold; try discriminate Hold;
    injection Hold as <-; now rewrite Nat.eqb_refl.
Qed.

Lemma connect_replaces_stream_witness :
  health_ok Session.healthy = true
  /\ session_mode
       (final
          (connectToServer (render_of Session.tab Session.connected) true
             Session.healthy 3 Session.connected))
     = Some AudioMode.
Proof.
  split; [reflexivity|].
  destruct (connect_replaces_stream (render_of Session.tab Session.connected)
              true Session.healthy 3 Session.connected eq_refl)
    as (_ & _ & Hmode & _).
  exact Hmode.
Defined.

(** X12. When the liveness request is refused or fails, [connectToServer]
    does not throw and opens no stream, but the stream held before has
    already been closed: no session is left, the page is marked disconnected,
    and the recording and voice flags are not touched. *)
Theorem failed_connect_leaves_no_session
    (r : Render) (audioMode : bool) (health : FetchResult) (now : Z) (s : State) :
  health_ok health = false ->
  let o := connectToServer r audioMode health now s in
  result o = Normal tt
  /\ session_mode (final o) = None
  /\ isConnected (final o) = false
  /\ reconnects (effects o) = 0%nat
  /\ requests (effects o) = 1%nat
  /\ eventSourceRef (final o)
     = option_map (fun es => mkEventSource (es_handle es) (es_is_audio es) true)
         (eventSourceRef s)
  /\ isRecording (final o) = isRecording s
  /\ isVoiceEnabled (final o) = isVoiceEnabled s.
Proof.
  intros Hhealth.
  destruct s as [msgs iv ic ive ir im it es cm pn pc rn rc mic buf timer nh].
  destruct health as [[[] st] | reason]; try discriminate Hhealth;
    destruct es as [es|]; lazy -[notice unreachable]; repeat split.
Qed.

Lemma failed_connect_leaves_no_session_witness :
  health_ok Session.down = false
  /\ session_mode
       (final
          (connectToServer (render_of Session.tab Session.voice_live) true
             Session.down 3 Session.voice_live))
     = None
  /\ isRecording
       (final
          (connectToServer (render_of Session.tab Session.voice_live) true
             Session.down 3 Session.voice_live))
     = isRecording Session.voice_live.
Proof.
  split; [reflexivity|].
  destruct (failed_connect_leaves_no_session
              (render_of Session.tab Session.voice_live) true Session.down 3
              Session.voice_live eq_refl)
    as (_ & Hmode & _ & _ & _ & _ & Hrecording & _).
  split; [exact Hmode | exact Hrecording].
Defined.

(** X13. An error of the stream marks the page disconnected and says so in
    the transcript, but neither closes the stream nor opens another, makes no
    request, and leaves the recording flag and the flush timer as they are.
    When the stream opens again the page is marked connected; the transcript
    then gains the connection notice in text mode only. *)
Theorem stream_error_then_reopen (audioMode : bool) (t1 t2 : Z) (s : State) :
  let o1 := onerror t1 s in
  let o2 := onopen audioMode t2 (final o1) in
  result o1 = Normal tt /\ result o2 = Normal tt
  /\ isConnected (final o1) = false
  /\ eventSourceRef (final o1) = eventSourceRef s
  /\ session_mode (final o1) = session_mode s
  /\ isRecording (final o1) = isRecording s
  /\ bufferTimerRef (final o1) = bufferTimerRef s
  /\ reconnects (effects o1) = 0%nat
  /\ requests (effects o1) = 0%nat
  /\ isConnected (final o2) = true
  /\ eventSourceRef (final o2) = eventSourceRef s
  /\ messages (final o2)
     = messages s
       ++ notice t1
            "❌ Connection lost. Please check server and try reconnecting."
       :: (if audioMode then []
           else [notice t2 "✅ Connected to SkillBridge AI (Text Mode)"]).
Proof.
  destruct s as [msgs iv ic ive ir im it es cm pn pc rn rc mic buf timer nh].
  destruct audioMode; lazy -[notice app]; rewrite <- ?app_assoc; repeat split.
Qed.

(** ** Disconnecting *)

(** X14. From every state, and whatever frames reach the handler of the
    recorder while it waits, [disconnectFromServer] returns without
    throwing, holds no stream afterwards, marks the page disconnected, and
    its notice is the last message of the transcript.  When the render saw
    voice enabled the voice conversation is stopped first: both flags are
    false and the audio references and the microphone are empty, and no
    pipeline is left when no frame that passes the gate arrived during the
    waits.  Otherwise the transcript gains that notice only, no request is
    made, and the recording flag and the microphone are left as they are. *)
Theorem disconnect_always_disconnects
    (w : Arrivals) (r : Render) (outcome health : FetchResult) (t1 t2 now : Z)
    (s : State) :
  let o := disconnectFromServer_async w r outcome health t1 t2 now s in
  result o = Normal tt
  /\ eventSourceRef (final o) = None
  /\ session_mode (final o) = None
  /\ isConnected (final o) = false
  /\ (exists earlier,
         messages (final o)
         = earlier ++ [notice now "🔴 Disconnected from SkillBridge AI"])
  /\ (r_isVoiceEnabled r = true ->
      (isVoiceEnabled (final o) = false /\ isRecording (final o) = false
       /\ audioPlayerNodeRef (final o) = None
       /\ audioPlayerContextRef (final o) = None
       /\ audioRecorderNodeRef (final o) = None
       /\ audioRecorderContextRef (final o) = None
       /\ micStreamRef (final o) = None)
      /\ (no_voice w -> never_started (final o)))
  /\ (r_isVoiceEnabled r = false ->
      messages (final o)
      = messages s ++ [notice now "🔴 Disconnected from SkillBridge AI"]
      /\ requests (effects o) = 0%nat
      /\ isRecording (final o) = isRecording s
      /\ micStreamRef (final o) = micStreamRef s).
Proof.
  intros o. remember o as o' eqn:E. subst o.
  unfold disconnectFromServer_async, when in E.
  destruct (r_isVoiceEnabled r) eqn:Hvoice.
  - unfold bind at 1 in E. cbv beta in E.
    destruct (stopVoiceConversation_async_outcome w r outcome health t1 t2 s)
      as (Hres & Hrefs & Hquiet & _).
    destruct (stopVoiceConversation_async w r outcome health t1 t2 s)
      as [res sf ef].
    cbn [result final] in Hres, Hrefs, Hquiet. subst res.
    destruct sf as [msgs iv ic ive ir im it es cm pn pc rn rc mic buf timer nh].
    unfold never_started. cbn in Hrefs, Hquiet.
    destruct es as [es|]; lazy -[notice app no_voice] in E; subst o';
      cbn -[notice no_voice];
      repeat match goal with |- _ /\ _ => split end;
      try reflexivity; try tauto; try discriminate; eauto;
      intros _; (split; [tauto|]); intros Hw; destruct (Hquiet Hw); tauto.
  - destruct s as [msgs iv ic ive ir im it es cm pn pc rn rc mic buf timer nh].
    destruct es as [es|]; lazy -[notice app no_voice] in E; subst o';
      cbn -[notice no_voice];
      repeat split; try discriminate; eauto.
Qed.

(** ** Unmounting *)

(** X15. The cleanup of the mount effect closes the stream, clears the timer,
    stops the microphone and closes both audio contexts, whichever of them
    are held.  It does not flush: nothing is sent and no request is made, and
    the buffer and the transcript are left as they are. *)
Theorem unmount_releases_and_sends_nothing (s : State) :
  let o := unmount s in
  result o = Normal tt
  /\ sent (effects o) = []
  /\ requests (effects o) = 0%nat
  /\ session_mode (final o) = None
  /\ audioBufferRef (final o) = audioBufferRef s
  /\ messages (final o) = messages s
  /\ (forall timer, bufferTimerRef s = Some timer ->
                    In (ClearInterval timer) (effects o))
  /\ (forall micStream, micStreamRef s = Some micStream ->
                        In (TracksStop micStream) (effects o))
  /\ (forall ctx, audioPlayerContextRef s = Some ctx ->
                  In (AudioContextClose (ctx_handle ctx)) (effects o))
  /\ (forall ctx, audioRecorderContextRef s = Some ctx ->
                  In (AudioContextClose (ctx_handle ctx)) (effects o))
  /\ (forall es, eventSourceRef s = Some es ->
                 In (EventSourceClose (es_handle es)) (effects o)).
Proof.
  intros o.
  destruct s as [msgs iv ic ive ir im it es cm pn pc rn rc mic buf timer nh].
  destruct timer, mic, pc, rc, es;
    remember o as o' eqn:E; subst o; lazy in E; subst o';
    lazy -[In]; released.
Qed.

(** ** Invariants of computations *)

Section Maintains.

Variable P : State -> Prop.
Variable allowed : Effect -> bool.

Lemma maintains_bind {A B : Type} (m : M A) (k : A -> M B) :
  maintains P allowed m -> (forall a, maintains P allowed (k a)) ->
  maintains P allowed (bind m k).
Proof.
  intros Hm Hk s Hs. unfold bind. destruct (Hm s Hs) as [H1 H2].
  destruct (m s) as [[a | error] s1 e1]; cbn [final effects] in *; [|auto].
  destruct (Hk a s1 H1) as [H3 H4].
  destruct (k a s1) as [r2 s2 e2]; cbn [final effects] in *.
  split; [exact H3|]. rewrite forallb_app, H2, H4. reflexivity.
Qed.

Lemma maintains_get_bind {B : Type} (k : State -> M B) :
  (forall s0, P s0 -> maintains P allowed (k s0)) ->
  maintains P allowed (bind get k).
Proof.
  intros Hk s Hs. unfold bind, get.
  destruct (Hk s Hs s Hs) as [H1 H2].
  destruct (k s s) as [r2 s2 e2]; cbn [final effects] in *. auto.
Qed.

Lemma maintains_try_catch {A : Type} (m : M A) (h : string -> M A) :
  maintains P allowed m -> (forall e, maintains P allowed (h e)) ->
  maintains P allowed (try_catch m h).
Proof.
  intros Hm Hh s Hs. unfold try_catch. destruct (Hm s Hs) as [H1 H2].
  destruct (m s) as [[a | error] s1 e1]; cbn [final effects] in *; [auto|].
  destruct (Hh error s1 H1) as [H3 H4].
  destruct (h error s1) as [r2 s2 e2]; cbn [final effects] in *.
  split; [exact H3|]. rewrite forallb_app, H2, H4. reflexivity.
Qed.

Lemma maintains_ret {A : Type} (a : A) : maintains P allowed (ret a).
Proof. intros s Hs. split; [exact Hs | reflexivity]. Qed.

Lemma maintains_throw {A : Type} (e : string) : maintains P allowed (@throw A e).
Proof. intros s Hs. split; [exact Hs | reflexivity]. Qed.

Lemma maintains_emit (e : Effect) :
  allowed e = true -> maintains P allowed (emit e).
Proof. intros He s Hs. split; [exact Hs|]. cbn. now rewrite He. Qed.

Lemma maintains_modify (f : State -> State) :
  (forall s, P s -> P (f s)) -> maintains P allowed (modify f).
Proof. intros Hf s Hs. split; [now apply Hf | reflexivity]. Qed.

End Maintains.

Ltac maintains_step :=
  match goal with
  | |- forall _, _ => intro
  | |- maintains _ _ (bind get _) => apply maintains_get_bind
  | |- maintains _ _ (bind _ _) => apply maintains_bind
  | |- maintains _ _ (try_catch _ _) => apply maintains_try_catch
  | |- maintains _ _ (ret _) => apply maintains_ret
  | |- maintains _ _ (throw _) => apply maintains_throw
  | |- maintains _ _ (emit _) => apply maintains_emit; reflexivity
  | |- maintains _ _ (match ?x with _ => _ end) => destruct x eqn:?
  | |- maintains _ _ (when ?b _) => destruct b eqn:?; unfold when
  end.

Lemma same_outside_reply_refl s : same_outside_reply s s.
Proof. repeat split. Qed.

Ltac same_fields :=
  match goal with
  | H : same_outside_reply _ ?s |- same_outside_reply _ _ =>
      unfold same_outside_reply in *; destruct s; cbn in *; exact H
  end.

Lemma player_postMessage_inbound s0 msg :
  maintains (same_outside_reply s0) inbound_effect (player_postMessage msg).
Proof.
  intros s Hs. unfold player_postMessage, bind, get.
  unfold same_outside_reply in *.
  destruct s as [msgs iv ic ive ir im it es cm pn pc rn rc mic buf timer nh].
  destruct pn as [node|], msg; cbn in *; split; (exact Hs || reflexivity).
Qed.

Lemma no_audio_posts effs :
  forallb not_audio_post effs = true -> audio_posts effs = [].
Proof.
  induction effs as [|e effs IH]; [reflexivity|].
  cbn [forallb]. intros H. apply andb_true_iff in H as [He H].
  destruct e; cbn; auto. destruct msg; [auto | discriminate He].
Qed.

(** A buffer that is not empty has a base64 text that is not empty. *)
Lemma arrayBufferToBase64_nonempty (chunk : ArrayBuffer) :
  chunk <> [] -> exists c text, arrayBufferToBase64 chunk = String c text.
Proof.
  intros Hne. unfold arrayBufferToBase64, Base64.btoa.
  rewrite binary_of_bytes. cbn [String.append].
  rewrite list_ascii_of_string_of_list_ascii.
  destruct chunk as [|a [|b [|c rest]]]; [now destruct Hne| | |];
    cbn [map Base64.encode_chars string_of_list_ascii]; eauto.
Qed.

(** ** The handler of the stream on a sequence of events *)

Section InboundEvents.

Variable JSON_parse : string -> option json.
Variable ToString_other : json -> string.

Lemma onmessage_inbound s0 r event_data random_id now :
  maintains (same_outside_reply s0) inbound_effect
    (onmessage JSON_parse ToString_other r event_data random_id now).
Proof.
  unfold onmessage, handler, commit, read, setIsTyping, setMessages,
    console_log, console_error.
  repeat first
    [ apply player_postMessage_inbound
    | apply maintains_modify; intros; same_fields
    | maintains_step ].
Qed.

(** X16. Whatever the events of the stream are, well formed or not, handling
    them never throws and changes nothing of the state but the transcript,
    the typing flag, the pointer to the open message and the queue of the
    player: the flags of the connection and of the recording, the stream, the
    microphone, the buffer and the timer are left as they are.  Its only
    effects are console output and posts to the player: it makes no request
    and opens or closes no stream. *)
Theorem inbound_events_touch_only_the_reply
    (r : Render) (events : list (string * string * Z)) (s : State) :
  let o := onmessages JSON_parse ToString_other r events s in
  result o = Normal tt
  /\ same_outside_reply s (final o)
  /\ forallb inbound_effect (effects o) = true.
Proof.
  cbv zeta. revert s. induction events as [|[[event_data random_id] now] rest IH];
    intros s.
  - cbn. split; [reflexivity|]. split; [apply same_outside_reply_refl | reflexivity].
  - cbn [onmessages]. unfold bind.
    pose proof (onmessage_returns JSON_parse ToString_other r event_data
                  random_id now s) as Hres.
    destruct (onmessage_inbound s r event_data random_id now s
                (same_outside_reply_refl s)) as [Hsame Heffs].
    destruct (onmessage JSON_parse ToString_other r event_data random_id now s)
      as [res s1 e1].
    cbn [result final effects] in *. subst res.
    destruct (IH s1) as (Hr & Hs & He).
    destruct (onmessages JSON_parse ToString_other r rest s1) as [res2 s2 e2].
    cbn [result final effects] in *.
    split; [exact Hr|]. split.
    + unfold same_outside_reply in *.
      repeat match goal with H : _ /\ _ |- _ => destruct H end.
      repeat split; congruence.
    + rewrite forallb_app, Heffs, He. reflexivity.
Qed.

Lemma onmessages_maintains P allowed r events :
  (forall event_data random_id now,
      maintains P allowed
        (onmessage JSON_parse ToString_other r event_data random_id now)) ->
  maintains P allowed (onmessages JSON_parse ToString_other r events).
Proof.
  intros H. induction events as [|[[event_data random_id] now] rest IH].
  - apply maintains_ret.
  - cbn [onmessages]. apply maintains_bind; [apply H | intros _; exact IH].
Qed.

Lemma player_postMessage_end P :
  (forall s node, P s -> audioPlayerNodeRef s = Some node ->
                  P (set_audioPlayerNodeRef (Some (interrupt node)) s)) ->
  maintains P not_audio_post (player_postMessage EndOfAudio).
Proof.
  intros HP s Hs. unfold player_postMessage, bind, get.
  destruct (audioPlayerNodeRef s) as [node|] eqn:Hnode; cbn.
  - split; [now apply HP | reflexivity].
  - split; [exact Hs | reflexivity].
Qed.

Lemma onmessage_muted r event_data random_id now :
  r_isMuted r = true ->
  maintains (fun _ => True) not_audio_post
    (onmessage JSON_parse ToString_other r event_data random_id now).
Proof.
  intros Hmuted.
  unfold onmessage, handler, commit, read, setIsTyping, setMessages,
    console_log, console_error.
  repeat first
    [ apply player_postMessage_end; auto
    | apply maintains_modify; auto
    | match goal with
      | H : _ && negb (r_isMuted r) = true |- _ =>
          rewrite Hmuted, andb_false_r in H; discriminate H
      end
    | maintains_step ].
Qed.

Lemma onmessage_without_player r event_data random_id now :
  maintains (fun s => audioPlayerNodeRef s = None) not_audio_post
    (onmessage JSON_parse ToString_other r event_data random_id now).
Proof.
  unfold onmessage, handler, commit, read, setIsTyping, setMessages,
    console_log, console_error.
  repeat first
    [ apply player_postMessage_end; intros; congruence
    | apply maintains_modify; intros s' Hs'; destruct s'; exact Hs'
    | match goal with
      | Hnone : audioPlayerNodeRef ?s = None,
        H : _ && is_some (audioPlayerNodeRef ?s) && _ = true |- _ =>
          rewrite Hnone in H; cbn [is_some] in H;
          rewrite andb_false_r in H; discriminate H
      end
    | maintains_step ].
Qed.

(** X17. No audio reaches the player when the render the handler was
    installed with saw the page muted, or when no player node is held:
    whatever the events are, no audio buffer is posted. *)
Theorem audio_needs_player_and_unmuted_render
    (r : Render) (events : list (string * string * Z)) (s : State) :
  r_isMuted r = true \/ audioPlayerNodeRef s = None ->
  audio_posts (effects (onmessages JSON_parse ToString_other r events s)) = [].
Proof.
  intros [Hmuted | Hnone]; apply no_audio_posts.
  - apply (onmessages_maintains (fun _ => True) not_audio_post r events); auto.
    intros. now apply onmessage_muted.
  - apply (onmessages_maintains (fun s => audioPlayerNodeRef s = None)
             not_audio_post r events); auto.
    intros. apply onmessage_without_player.
Qed.

Lemma onmessage_audio_chunk r event_data random_id now s c text node buffer :
  JSON_parse event_data = Some (wire (AudioChunk (String c text))) ->
  audioPlayerNodeRef s = Some node ->
  r_isMuted r = false ->
  base64ToArray (String c text) = Some buffer ->
  onmessage JSON_parse ToString_other r event_data random_id now s
  = mkOutcome (Normal tt)
      (set_audioPlayerNodeRef (Some (enqueue buffer node)) s)
      [ConsoleLog "Received data:"; ConsoleLog "Received audio data:";
       PortPostMessage (node_handle node) (Audio buffer)].
Proof.
  intros Hparse Hnode Hmuted Hdecode.
  unfold onmessage, handler. rewrite Hparse.
  destruct s as [msgs iv ic ive ir im it es cm pn pc rn rc mic buf timer nh].
  cbn [audioPlayerNodeRef] in Hnode. subst pn.
  destruct r as [r_iv r_ic r_ive r_im uid]. cbn [r_isMuted] in Hmuted. subst r_im.
  lazy -[base64ToArray].
  rewrite Hdecode. reflexivity.
Qed.

(** X18. When a player node is held and the render the handler was installed
    with saw the page unmuted, a sequence of audio events whose data are the
    base64 texts of non-empty buffers posts exactly these buffers to the
    player, in the order of the events, and appends them to its queue.  The
    mute flag of the state is not read: muting after the handler was
    installed does not stop the posts. *)
Theorem audio_chunks_keep_order
    (r : Render) (events : list (string * string * Z))
    (chunks : list ArrayBuffer) (node : PlayerNode) (s : State) :
  r_isMuted r = false ->
  audioPlayerNodeRef s = Some node ->
  Forall2
    (fun event chunk =>
       chunk <> []
       /\ JSON_parse (fst (fst event))
          = Some (wire (AudioChunk (arrayBufferToBase64 chunk))))
    events chunks ->
  let o := onmessages JSON_parse ToString_other r events s in
  result o = Normal tt
  /\ audio_posts (effects o) = chunks
  /\ audioPlayerNodeRef (final o)
     = Some (mkPlayerNode (node_handle node) (queue node ++ chunks)
               (playing node) (output_connected node)).
Proof.
  intros Hmuted Hnode Hevents. cbv zeta. revert node s Hnode.
  induction Hevents as [|[[event_data random_id] now] chunk events chunks
                          [Hne Hparse] _ IH];
    intros node s Hnode.
  - cbn. rewrite app_nil_r, Hnode. destruct node. repeat split.
  - cbn [onmessages fst] in *. unfold bind.
    destruct (arrayBufferToBase64_nonempty chunk Hne) as (c & text & Hb64).
    pose proof (decode_audio_frame chunk) as Hdecode.
    unfold audio_frame in Hdecode. cbn [data] in Hdecode.
    rewrite Hb64 in Hparse, Hdecode.
    rewrite (onmessage_audio_chunk r event_data random_id now s c text node chunk
               Hparse Hnode Hmuted Hdecode).
    destruct (IH (enqueue chunk node)
                (set_audioPlayerNodeRef (Some (enqueue chunk node)) s))
      as (Hr & Hp & Hq); [destruct s; reflexivity|].
    destruct (onmessages JSON_parse ToString_other r events _) as [res sf ef].
    cbn [result final effects] in *.
    split; [exact Hr|]. split.
    + cbn. now rewrite Hp.
    + rewrite Hq. unfold enqueue. cbn. now rewrite <- app_assoc.
Qed.



End InboundEvents.

Lemma audio_needs_player_and_unmuted_render_witness :
  (r_isMuted (render_of Session.tab Session.connected) = true
   \/ audioPlayerNodeRef Session.connected = None)
  /\ audio_posts
       (effects
          (onmessages Session.parse Session.to_string
             (render_of Session.tab Session.connected)
             [(Session.audio_chunk_text "SGVsbG8=", "k1", 3)]
             Session.connected))
     = [].
Proof.
  split; [right; reflexivity|].
  apply (audio_needs_player_and_unmuted_render Session.parse Session.to_string
           (render_of Session.tab Session.connected)
           [(Session.audio_chunk_text "SGVsbG8=", "k1", 3)] Session.connected).
  right. reflexivity.
Defined.

Lemma audio_chunks_keep_order_witness :
  r_isMuted (render_of Session.tab Session.voice_live) = false
  /\ audioPlayerNodeRef Session.voice_live
     = Some (mkPlayerNode 2%nat [] None true)
  /\ audio_posts
       (effects
          (onmessages Session.parse Session.to_string
             (render_of Session.tab Session.voice_live)
             [(Session.audio_chunk_text "SGVsbG8=", "k1", 6);
              (Session.audio_chunk_text "SGVsbG8=", "k2", 7)]
             Session.voice_live))
     = [[x48; x65; x6c; x6c; x6f]; [x48; x65; x6c; x6c; x6f]].
Proof.
  split; [reflexivity|]. split; [reflexivity|].
  destruct (audio_chunks_keep_order Session.parse Session.to_string
              (render_of Session.tab Session.voice_live)
              [(Session.audio_chunk_text "SGVsbG8=", "k1", 6);
               (Session.audio_chunk_text "SGVsbG8=", "k2", 7)]
              [[x48; x65; x6c; x6c; x6f]; [x48; x65; x6c; x6c; x6f]]
              (mkPlayerNode 2%nat [] None true) Session.voice_live
              eq_refl eq_refl) as (_ & Hposts & _).
  - repeat constructor; discriminate.
  - exact Hposts.
Defined.


(** ** Text messages *)

Lemma trimStart_white_space c rest :
  In c white_space -> trimStart (c ++ rest) = trimStart rest.
Proof.
  intros H. cbv [white_space map utf8 string_of_list_ascii] in H.
  cbn [In] in H.
  repeat (destruct H as [<- | H]; [reflexivity|]). destruct H.
Qed.

Lemma trimStart_blank s : blank s -> trimStart s = EmptyString.
Proof.
  intros (characters & Hall & ->).
  induction Hall as [|c characters Hc _ IH]; [reflexivity|].
  cbn [String.concat].
  destruct characters as [|c' characters].
  - replace c with (c ++ EmptyString)%string
      by (clear; induction c as [|a c IH]; [reflexivity | cbn; now rewrite IH]).
    now rewrite (trimStart_white_space c EmptyString Hc).
  - cbn [String.append]. rewrite (trimStart_white_space c _ Hc). exact IH.
Qed.

Lemma trim_blank s : blank s -> trim s = EmptyString.
Proof.
  intros H. unfold trim. rewrite (trimStart_blank s H). reflexivity.
Qed.

(** X20. When the input is white space only (any number of the white space
    characters and line terminators that [trim] strips, U+00A0 and the other
    Unicode spaces included, or no character at all) or the render saw the
    page disconnected, neither [sendMessage] nor a key press, Enter included,
    does anything: the state is unchanged, nothing is sent and nothing is
    logged. *)
Theorem blank_or_offline_sends_nothing
    (r : Render) (key : string) (shiftKey : bool) (now : Z)
    (outcome : FetchResult) (t : Z) (s : State) :
  blank (r_inputValue r) \/ r_isConnected r = false ->
  sendMessage r now outcome t s = mkOutcome (Normal tt) s []
  /\ handleKeyPress r key shiftKey now outcome t s = mkOutcome (Normal tt) s [].
Proof.
  intros H.
  assert (Hsend : sendMessage r now outcome t s = mkOutcome (Normal tt) s []).
  { unfold sendMessage, sendMessage_request, bind.
    destruct H as [H | H].
    - rewrite (trim_blank _ H). reflexivity.
    - rewrite H, orb_true_r. reflexivity. }
  split; [exact Hsend|]. unfold handleKeyPress.
  destruct (String.eqb key "Enter" && negb shiftKey); [exact Hsend | reflexivity].
Qed.

Lemma blank_or_offline_sends_nothing_witness :
  (blank (" " ++ utf8 [194; 160]%N ++ utf8 [226; 128; 168]%N)%string
   \/ r_isConnected
        (mkRender (" " ++ utf8 [194; 160]%N ++ utf8 [226; 128; 168]%N)%string
           true false false 7) = false)
  /\ sendMessage
       (mkRender (" " ++ utf8 [194; 160]%N ++ utf8 [226; 128; 168]%N)%string
          true false false 7)
       3 Session.healthy 4 Session.connected
     = mkOutcome (Normal tt) Session.connected [].
Proof.
  assert (H : blank (" " ++ utf8 [194; 160]%N ++ utf8 [226; 128; 168]%N)%string).
  { exists [" "; utf8 [194; 160]%N; utf8 [226; 128; 168]%N]. split; [|reflexivity].
    repeat apply Forall_cons; [| | |apply Forall_nil]; cbv [white_space map In].
    - do 5 right. left. reflexivity.
    - do 6 right. left. reflexivity.
    - do 19 right. left. reflexivity. }
  split; [left; exact H|].
  apply (blank_or_offline_sends_nothing
           (mkRender (" " ++ utf8 [194; 160]%N ++ utf8 [226; 128; 168]%N)%string
              true false false 7)
           "Enter" false 3 Session.healthy 4 Session.connected).
  left. exact H.
Defined.

(** X21. A message that is sent carries the input as typed, surrounding white
    space included, both in the request and in the transcript; exactly one
    request is made.  The input is cleared only when the server accepts the
    message: when the request fails or is refused the input is kept and a
    failure notice follows the user's message.  The connection is not
    touched either way. *)
Theorem sendMessage_clears_input_only_on_success
    (r : Render) (now : Z) (outcome : FetchResult) (t : Z) (s : State) :
  r_isConnected r = true ->
  String.eqb (trim (r_inputValue r)) EmptyString = false ->
  let o := sendMessage r now outcome t s in
  let userMessage :=
    mkMessage (Date_toString now) (JStr (r_inputValue r)) user now None in
  result o = Normal tt
  /\ sent (effects o) = [text_frame (r_inputValue r)]
  /\ requests (effects o) = 1%nat
  /\ inputValue (final o)
     = (if health_ok outcome then EmptyString else inputValue s)
  /\ messages (final o)
     = messages s ++ userMessage
       :: (if health_ok outcome then []
           else [notice t "❌ Failed to send message. Please try again."])
  /\ isConnected (final o) = isConnected s
  /\ eventSourceRef (final o) = eventSourceRef s.
Proof.
  intros Hconnected Hinput. cbv zeta.
  unfold sendMessage, sendMessage_request. rewrite Hinput, Hconnected.
  destruct s as [msgs iv ic ive ir im it es cm pn pc rn rc mic buf timer nh].
  destruct outcome as [[[] st] | reason];
    lazy -[notice app text_frame Date_toString r_inputValue userId];
    rewrite <- ?app_assoc; repeat split.
Qed.

Lemma sendMessage_clears_input_only_on_success_witness :
  r_isConnected (mkRender " hi " true false false 7) = true
  /\ String.eqb (trim (r_inputValue (mkRender " hi " true false false 7)))
       EmptyString = false
  /\ sent (effects (sendMessage (mkRender " hi " true false false 7) 3
                      Session.down 4 Session.connected))
     = [text_frame " hi "].
Proof.
  split; [reflexivity|]. split; [reflexivity|].
  apply (sendMessage_clears_input_only_on_success
           (mkRender " hi " true false false 7) 3 Session.down 4
           Session.connected eq_refl eq_refl).
Defined.

(** X22. A quick action followed by Enter sends the text of the action: on a
    connected page, once the action has been put into the input and the page
    rendered, Enter without Shift sends exactly one text frame with that
    text and adds it to the transcript as the user's message; the input is
    cleared when the server accepts it and holds the action otherwise. *)
Theorem quick_action_then_enter
    (uid : Z) (action : string) (now : Z) (outcome : FetchResult) (t : Z)
    (s : State) :
  isConnected s = true ->
  String.eqb (trim action) EmptyString = false ->
  let s1 := exec (quickAction action) s in
  let o := handleKeyPress (render_of uid s1) "Enter" false now outcome t s1 in
  result o = Normal tt
  /\ sent (effects o) = [text_frame action]
  /\ inputValue (final o) = (if health_ok outcome then EmptyString else action)
  /\ messages (final o)
     = messages s ++ mkMessage (Date_toString now) (JStr action) user now None
       :: (if health_ok outcome then []
           else [notice t "❌ Failed to send message. Please try again."]).
Proof.
  intros Hconnected Haction. cbv zeta.
  destruct s as [msgs iv ic ive ir im it es cm pn pc rn rc mic buf timer nh].
  cbn [isConnected] in Hconnected. subst ic.
  unfold handleKeyPress, sendMessage, sendMessage_request, quickAction, exec,
    render_of, setInputValue, modify.
  cbn [final inputValue set_inputValue isConnected r_inputValue r_isConnected
       String.eqb Ascii.eqb Bool.eqb andb negb].
  rewrite Haction.
  destruct outcome as [[[] st] | reason];
    lazy -[notice app text_frame Date_toString];
    rewrite <- ?app_assoc; repeat split.
Qed.

Lemma quick_action_then_enter_witness :
  isConnected Session.connected = true
  /\ String.eqb (trim "Help me find a mentor for data science") EmptyString
     = false
  /\ sent
       (effects
          (handleKeyPress
             (render_of 7
                (exec (quickAction "Help me find a mentor for data science")
                   Session.connected))
             "Enter" false 3 Session.healthy 4
             (exec (quickAction "Help me find a mentor for data science")
                Session.connected)))
     = [text_frame "Help me find a mentor for data science"].
Proof.
  split; [reflexivity|]. split; [reflexivity|].
  apply (quick_action_then_enter 7 "Help me find a mentor for data science" 3
           Session.healthy 4 Session.connected eq_refl eq_refl).
Defined.

(** ** Mute *)

(** X23. With a player held, muting and then unmuting (or the reverse), each
    from the render of the state it acts on, restores the mute flag and keeps
    the player's queue; the transcript gains the two notices in order.  The
    second toggle sets the output from the flag, not from what the output
    was: the output ends connected exactly when the page is unmuted, so its
    connection is restored when it agreed with the flag at the start.  A
    toggle posts no audio and sends nothing. *)
Theorem toggleMute_twice
    (r1 r2 : Render) (t1 t2 : Z) (node : PlayerNode) (ctx : AudioContext)
    (s : State) :
  audioPlayerNodeRef s = Some node ->
  audioPlayerContextRef s = Some ctx ->
  r_isMuted r1 = isMuted s ->
  r_isMuted r2 = negb (isMuted s) ->
  let s1 := exec (toggleMute r1 t1) s in
  let s2 := exec (toggleMute r2 t2) s1 in
  isMuted s1 = negb (isMuted s)
  /\ audioPlayerNodeRef s1 = Some (set_output (isMuted s) node)
  /\ isMuted s2 = isMuted s
  /\ audioPlayerNodeRef s2 = Some (set_output (negb (isMuted s)) node)
  /\ (output_connected node = negb (isMuted s) -> audioPlayerNodeRef s2 = Some node)
  /\ messages s2
     = messages s
       ++ [notice t1 (if isMuted s then "🔊 Audio unmuted" else "🔊 Audio muted");
           notice t2 (if isMuted s then "🔊 Audio muted" else "🔊 Audio unmuted")]
  /\ audio_posts (effects (toggleMute r1 t1 s)) = []
  /\ sent (effects (toggleMute r1 t1 s)) = [].
Proof.
  intros Hnode Hctx Hr1 Hr2.
  destruct s as [msgs iv ic ive ir im it es cm pn pc rn rc mic buf timer nh].
  cbn [audioPlayerNodeRef audioPlayerContextRef isMuted] in *. subst pn pc.
  destruct r1 as [iv1 ic1 ive1 im1 uid1], r2 as [iv2 ic2 ive2 im2 uid2].
  cbn [r_isMuted] in *. subst im1 im2.
  destruct node as [h q p out].
  destruct im; lazy -[notice app]; rewrite <- ?app_assoc;
    repeat match goal with |- _ /\ _ => split end;
    try reflexivity; intros ->; reflexivity.
Qed.

Lemma toggleMute_twice_witness :
  r_isMuted (render_of 7 Session.answering) = isMuted Session.answering
  /\ option_map output_connected (audioPlayerNodeRef Session.answering)
     = Some (negb (isMuted Session.answering))
  /\ option_map queue
       (audioPlayerNodeRef
          (exec (toggleMute (mkRender EmptyString true true true 7) 9)
             (exec (toggleMute (render_of 7 Session.answering) 8)
                Session.answering)))
     = Some [[x48; x65; x6c; x6c; x6f]].
Proof.
  split; [reflexivity|]. split; [reflexivity|].
  destruct (toggleMute_twice (render_of 7 Session.answering)
              (mkRender EmptyString true true true 7) 8 9
              (mkPlayerNode 2%nat [[x48; x65; x6c; x6c; x6f]] None true)
              (mkAudioContext 1%nat 24000) Session.answering
              eq_refl eq_refl eq_refl eq_refl) as (_ & _ & _ & _ & H & _).
  rewrite (H eq_refl). reflexivity.
Defined.

(** The flag and the output can disagree: the flag survives a stop and a
    start of the voice conversation, while the player that the start creates
    is connected. *)
Example muted_page_restarts_with_output_connected :
  let muted :=
    exec (toggleMute (render_of Session.tab Session.voice_live) 6)
      Session.voice_live in
  let stopped :=
    exec (stopVoiceConversation (render_of Session.tab muted) Session.healthy
            Session.healthy 7 8) muted in
  let restarted :=
    exec (startVoiceConversation (render_of Session.tab stopped) None None
            Session.healthy 9 10) stopped in
  isMuted restarted = true
  /\ option_map output_connected (audioPlayerNodeRef restarted) = Some true.
Proof. vm_compute. split; reflexivity. Qed.

(** X24. Without a player node or without a player context, [toggleMute]
    does nothing: the mute flag is not flipped and no notice is shown. *)
Theorem toggleMute_without_player (r : Render) (now : Z) (s : State) :
  audioPlayerNodeRef s = None \/ audioPlayerContextRef s = None ->
  toggleMute r now s = mkOutcome (Normal tt) s [].
Proof.
  intros H. unfold toggleMute, bind, get. cbn.
  destruct H as [-> | H]; [reflexivity|].
  rewrite H. now destruct (audioPlayerNodeRef s).
Qed.

Lemma toggleMute_without_player_witness :
  (audioPlayerNodeRef Session.connected = None
   \/ audioPlayerContextRef Session.connected = None)
  /\ isMuted
       (final (toggleMute (render_of Session.tab Session.connected) 3
                 Session.connected))
     = isMuted Session.connected.
Proof.
  split; [left; reflexivity|].
  rewrite (toggleMute_without_player (render_of Session.tab Session.connected) 3
             Session.connected (or_introl eq_refl)).
  reflexivity.
Defined.

(** ** Location *)

Section LocationFacts.

Variable Number_toString : Number.number -> string.
Variable toFixed6 : Number.number -> string.

(** X25. When the browser gives a position, [sendLocation] never throws; on a
    page the render saw disconnected it does nothing at all; on a connected
    page it sends exactly one text frame with the coordinates, and the
    transcript gains the location message only when the server accepts the
    request: a refusal or a failure of the request leaves the transcript as
    it was.  The input and the connected flag are left as they are. *)
Theorem location_is_shown_only_when_accepted
    (r : Render) (lat long : Number.number) (outcome : FetchResult) (now : Z)
    (s : State) :
  let o :=
    sendLocation Number_toString toFixed6 r (Located lat long) outcome now s in
  result o = Normal tt
  /\ (r_isConnected r = false -> o = mkOutcome (Normal tt) s [])
  /\ (r_isConnected r = true ->
      sent (effects o)
      = [text_frame
           ("My current location: Latitude " ++ Number_toString lat
            ++ ", Longitude " ++ Number_toString long)%string]
      /\ messages (final o)
         = messages s
           ++ (if health_ok outcome
               then [mkMessage (Date_toString now)
                       (JStr ("📍 Location shared: " ++ toFixed6 lat ++ ", "
                              ++ toFixed6 long)%string)
                       user now None]
               else [])
      /\ inputValue (final o) = inputValue s
      /\ isConnected (final o) = isConnected s).
Proof.
  cbv zeta. unfold sendLocation.
  destruct s as [msgs iv ic ive ir im it es cm pn pc rn rc mic buf timer nh].
  destruct (r_isConnected r); cbn [negb].
  - destruct outcome as [[[] st] | reason];
      lazy -[app text_frame Date_toString String.append userId];
      rewrite ?app_nil_r; repeat split; discriminate.
  - repeat split; discriminate.
Qed.

(** X26. Without a connection, without geolocation or without a position,
    [sendLocation] makes no request: on a page the render saw disconnected
    the state is unchanged, and on a connected page the transcript gains one
    notice and nothing else is done. *)
Theorem location_needs_connection_and_position
    (r : Render) (position : Geolocation) (outcome : FetchResult) (now : Z)
    (s : State) :
  r_isConnected r = false \/ position = Unsupported \/ position = Refused ->
  let o := sendLocation Number_toString toFixed6 r position outcome now s in
  result o = Normal tt
  /\ requests (effects o) = 0%nat
  /\ (r_isConnected r = false -> final o = s)
  /\ (r_isConnected r = true ->
      exists text, messages (final o) = messages s ++ [notice now text]).
Proof.
  intros H. cbv zeta. unfold sendLocation.
  destruct s as [msgs iv ic ive ir im it es cm pn pc rn rc mic buf timer nh].
  destruct (r_isConnected r); cbn [negb].
  - destruct H as [H | [-> | ->]]; [discriminate H | |];
      lazy -[app notice]; repeat split; try discriminate; eauto.
  - repeat split; discriminate.
Qed.

End LocationFacts.

Lemma location_needs_connection_and_position_witness :
  (r_isConnected (render_of Session.tab Session.connected) = false
   \/ Refused = Unsupported \/ Refused = Refused)
  /\ requests
       (effects
          (sendLocation (fun _ => "0") (fun _ => "0.000000")
             (render_of Session.tab Session.connected) Refused Session.healthy 3
             Session.connected))
     = 0%nat.
Proof.
  split; [right; right; reflexivity|].
  destruct (location_needs_connection_and_position
              (fun _ => "0") (fun _ => "0.000000")
              (render_of Session.tab Session.connected) Refused Session.healthy 3
              Session.connected (or_intror (or_intror eq_refl)))
    as (_ & Hrequests & _).
  exact Hrequests.
Defined.
